(** * qmlwebsockets_threaded: the threaded facade, its QML adapter and the
      server's pending-connection queue, embedded from the C++ sources.

    - [QWebSocketThreaded]      src/qmlwebsockets_threaded/qwebsocketthreaded.{h,cpp}
    - [QQmlWebSocketThreaded]   src/qmlwebsockets_threaded/qqmlwebsocketthreaded.cpp
    - [QWebSocketServer]        src/source/qwebsocketserver.cpp

    Objects are records, member functions are computations in a small
    state/output monad: the output is the list of Qt signals the call emits,
    in emission order.  Dereferencing a null [QScopedPointer] stops the
    computation with [NullDeref]. *)

From Stdlib Require Import String Ascii DecimalString List ZArith Bool Lia.
Import ListNotations.
Local Open Scope string_scope.
Local Open Scope list_scope.

(** ** Qt value types used by the sources *)

(** [QAbstractSocket::SocketState], in the order of the Qt enumeration. *)
Inductive SocketState : Type :=
| UnconnectedState
| HostLookupState
| ConnectingState
| ConnectedState
| BoundState
| ListeningState
| ClosingState.

(** [QAbstractSocket::SocketError] is only passed around ([Q_UNUSED] in the
    adapter): its integer value is kept. *)
Definition SocketError : Type := Z.

(** Modelled from the spec: [QWebSocketProtocol::CloseCode]
    (qwebsocketprotocol.h is missing), as the integer carried on the wire:
    1000 for a normal closure, 1001 for the "going away" close code. *)
Definition CloseCode : Type := Z.
Definition CloseCodeNormal : CloseCode := 1000%Z.
Definition CC_GOING_AWAY : CloseCode := 1001%Z.

Definition QString : Type := string.
Definition QByteArray : Type := list Byte.byte.
Definition QUrl : Type := string.

(** ** Computations: state passing with a log of emitted signals *)

Module Eff.
Section Eff.
Context {S E : Type}.

Inductive outcome (A : Type) : Type :=
| Done (a : A) (s : S) (out : list E)
| NullDeref (out : list E).
#[global] Arguments Done {A} a s out.
#[global] Arguments NullDeref {A} out.

Definition M (A : Type) : Type := S -> outcome A.

Definition ret {A} (a : A) : M A := fun s => Done a s [].

Definition bind {A B} (m : M A) (k : A -> M B) : M B :=
  fun s =>
    match m s with
    | Done a s1 o1 =>
        match k a s1 with
        | Done b s2 o2 => Done b s2 (o1 ++ o2)
        | NullDeref o2 => NullDeref (o1 ++ o2)
        end
    | NullDeref o1 => NullDeref o1
    end.

Definition get : M S := fun s => Done s s [].
Definition gets {A} (f : S -> A) : M A := fun s => Done (f s) s [].
Definition modify (f : S -> S) : M unit := fun s => Done tt (f s) [].
Definition emit (e : E) : M unit := fun s => Done tt s [e].
Definition nullDeref {A} : M A := fun _ => NullDeref [].

(** What a finished call leaves behind. *)
Definition stateOf {A} (r : outcome A) : option S :=
  match r with Done _ s _ => Some s | NullDeref _ => None end.
Definition outputOf {A} (r : outcome A) : list E :=
  match r with Done _ _ o => o | NullDeref o => o end.

Fixpoint forEach {X} (f : X -> M unit) (xs : list X) : M unit :=
  match xs with
  | [] => ret tt
  | x :: xs' => bind (f x) (fun _ => forEach f xs')
  end.
End Eff.
#[global] Arguments M : clear implicits.
#[global] Arguments outcome : clear implicits.
End Eff.

Declare Scope eff_scope.
Delimit Scope eff_scope with eff.
Notation "x <- c ;; k" := (Eff.bind c (fun x => k))
  (at level 61, c at next level, right associativity) : eff_scope.
Notation "c ;; k" := (Eff.bind c (fun _ => k))
  (at level 61, right associativity) : eff_scope.
Local Open Scope eff_scope.

(** ** QWebSocketThreaded: the facade living in the caller's thread *)

Module QWebSocketThreaded.

(** The four [...Command] signals are connected (queued) to the slots of the
    [QWebSocket] that lives in [m_thread]; the six others are re-emitted
    from the handlers towards the caller. *)
Inductive Signal : Type :=
| closeCommand (closeCode : CloseCode) (reason : QString)
| openCommand (url : QUrl)
| sendTextMessageCommand (message : QString)
| sendBinaryMessageCommand (data : QByteArray)
| connected
| disconnected
| stateChanged (state : SocketState)
| textMessageReceived (message : QString)
| binaryMessageReceived (message : QByteArray)
| error (err : SocketError).

Record t : Type := mk {
  m_errorString : QString;
  m_url : QUrl;
  m_state : SocketState
}.

Definition M := Eff.M t Signal.

(** The constructor leaves [m_state] uninitialised: [garbage] is whatever
    the member holds. [m_errorString] and [m_url] are default-constructed. *)
Definition new (garbage : SocketState) : t :=
  {| m_errorString := ""; m_url := ""; m_state := garbage |}.

Definition close (closeCode : CloseCode) (reason : QString) : M unit :=
  Eff.emit (closeCommand closeCode reason).

Definition open (url : QUrl) : M unit :=
  Eff.modify (fun w => {| m_errorString := m_errorString w;
                          m_url := url;
                          m_state := m_state w |}) ;;
  Eff.emit (openCommand url).

Definition connectedHandler : M unit := Eff.emit connected.
Definition disconnectedHandler : M unit := Eff.emit disconnected.
Definition stateChangedHandler (state : SocketState) : M unit :=
  Eff.modify (fun w => {| m_errorString := m_errorString w;
                          m_url := m_url w;
                          m_state := state |}) ;;
  Eff.emit (stateChanged state).
Definition textMessageReceivedHandler (message : QString) : M unit :=
  Eff.emit (textMessageReceived message).
Definition binaryMessageReceivedHandler (message : QByteArray) : M unit :=
  Eff.emit (binaryMessageReceived message).
Definition errorHandler (err : SocketError) : M unit :=
  Eff.emit (error err).

Definition errorString : M QString := Eff.gets m_errorString.
Definition state : M SocketState := Eff.gets m_state.
Definition requestUrl : M QUrl := Eff.gets m_url.

Definition sendTextMessage (message : QString) : M Z :=
  Eff.emit (sendTextMessageCommand message) ;;
  Eff.ret (-1)%Z.

Definition sendBinaryMessage (data : QByteArray) : M Z :=
  Eff.emit (sendBinaryMessageCommand data) ;;
  Eff.ret (-1)%Z.

(** Events the engine raises in the worker thread; each is connected in the
    constructor to the handler of the same name. *)
Inductive EngineEvent : Type :=
| EvConnected
| EvDisconnected
| EvStateChanged (state : SocketState)
| EvTextMessageReceived (message : QString)
| EvBinaryMessageReceived (message : QByteArray)
| EvError (err : SocketError).

Definition handle (e : EngineEvent) : M unit :=
  match e with
  | EvConnected => connectedHandler
  | EvDisconnected => disconnectedHandler
  | EvStateChanged s => stateChangedHandler s
  | EvTextMessageReceived m => textMessageReceivedHandler m
  | EvBinaryMessageReceived m => binaryMessageReceivedHandler m
  | EvError err => errorHandler err
  end.

(** Public calls a holder of the facade can make. *)
Inductive Call : Type :=
| CallClose (closeCode : CloseCode) (reason : QString)
| CallOpen (url : QUrl)
| CallSendTextMessage (message : QString)
| CallSendBinaryMessage (data : QByteArray)
| CallEngine (e : EngineEvent).

Definition step (c : Call) : M unit :=
  match c with
  | CallClose code reason => close code reason
  | CallOpen url => open url
  | CallSendTextMessage m => sendTextMessage m ;; Eff.ret tt
  | CallSendBinaryMessage d => sendBinaryMessage d ;; Eff.ret tt
  | CallEngine e => handle e
  end.

End QWebSocketThreaded.

(** ** QQmlWebSocketThreaded: the adapter that owns one facade *)

Module QQmlWebSocketThreaded.

(** Modelled from the spec: [enum Status] (qqmlwebsocketthreaded.h is
    missing): "ConnectionState: enumerated {Connecting, Open, Closing, Closed,
    Error}", the values the source lists for the [status] property. *)
Inductive Status : Type := Connecting | Open | Closing | Closed | Error.

Definition Status_eqb (a b : Status) : bool :=
  match a, b with
  | Connecting, Connecting | Open, Open | Closing, Closing
  | Closed, Closed | Error, Error => true
  | _, _ => false
  end.

(** The adapter's own signals, and [socket s] for a signal [s] emitted by
    the facade it owns while the adapter drives it. *)
Inductive Signal : Type :=
| statusChanged (status : Status)
| errorStringChanged (errorString : QString)
| urlChanged
| activeChanged (isActive : bool)
| textMessageReceived (message : QString)
| binaryMessageReceived (message : QByteArray)
| socket (s : QWebSocketThreaded.Signal).

Record t : Type := mk {
  m_webSocket : option QWebSocketThreaded.t;   (* QScopedPointer, may be null *)
  m_status : Status;
  m_url : QUrl;
  m_isActive : bool;
  m_componentCompleted : bool;
  m_errorString : QString
}.

Definition with_webSocket (w : option QWebSocketThreaded.t) (q : t) : t :=
  mk w (m_status q) (m_url q) (m_isActive q) (m_componentCompleted q) (m_errorString q).
Definition with_status (s : Status) (q : t) : t :=
  mk (m_webSocket q) s (m_url q) (m_isActive q) (m_componentCompleted q) (m_errorString q).
Definition with_url (u : QUrl) (q : t) : t :=
  mk (m_webSocket q) (m_status q) u (m_isActive q) (m_componentCompleted q) (m_errorString q).
Definition with_isActive (b : bool) (q : t) : t :=
  mk (m_webSocket q) (m_status q) (m_url q) b (m_componentCompleted q) (m_errorString q).
Definition with_componentCompleted (b : bool) (q : t) : t :=
  mk (m_webSocket q) (m_status q) (m_url q) (m_isActive q) b (m_errorString q).
Definition with_errorString (e : QString) (q : t) : t :=
  mk (m_webSocket q) (m_status q) (m_url q) (m_isActive q) (m_componentCompleted q) e.

Definition M := Eff.M t Signal.

(** [m_webSocket] tested as a boolean: the pointer is not null. *)
Definition hasSocket (q : t) : bool :=
  match m_webSocket q with Some _ => true | None => false end.

(** [m_webSocket->f(...)]: runs [f] on the owned facade; a null pointer is
    dereferenced when there is none. *)
Definition viaSocket {A} (f : QWebSocketThreaded.M A) : M A :=
  fun q =>
    match m_webSocket q with
    | None => Eff.NullDeref []
    | Some w =>
        match f w with
        | Eff.Done a w' o => Eff.Done a (with_webSocket (Some w') q) (map socket o)
        | Eff.NullDeref o => Eff.NullDeref (map socket o)
        end
    end.

Section WithQt.
(** [QObject::tr] and [QUrl::isValid] belong to Qt. *)
Variable tr : string -> QString.
Variable QUrl_isValid : QUrl -> bool.

Definition new : t :=
  {| m_webSocket := None; m_status := Closed; m_url := "";
     m_isActive := false; m_componentCompleted := true; m_errorString := "" |}.

Definition url : M QUrl := Eff.gets m_url.
Definition status : M Status := Eff.gets m_status.
Definition errorString : M QString := Eff.gets m_errorString.
Definition isActive : M bool := Eff.gets m_isActive.

(** [setStatus] calls it without an argument: the parameter defaults to
    [QString()]. *)
Definition setErrorString (errorString : QString) : M unit :=
  cur <- Eff.gets m_errorString ;;
  if String.eqb cur errorString then Eff.ret tt
  else
    Eff.modify (with_errorString errorString) ;;
    Eff.emit (errorStringChanged errorString).

Definition setStatus (status : Status) : M unit :=
  cur <- Eff.gets m_status ;;
  if Status_eqb cur status then Eff.ret tt
  else
    Eff.modify (with_status status) ;;
    (if negb (Status_eqb status Error) then setErrorString "" else Eff.ret tt) ;;
    Eff.emit (statusChanged status).

Definition sendTextMessage (message : QString) : M Z :=
  st <- Eff.gets m_status ;;
  if negb (Status_eqb st Open) then
    setErrorString (tr "Messages can only be sent when the socket is open.") ;;
    setStatus Error ;;
    Eff.ret 0%Z
  else viaSocket (QWebSocketThreaded.sendTextMessage message).

Definition sendBinaryMessage (message : QByteArray) : M Z :=
  st <- Eff.gets m_status ;;
  if negb (Status_eqb st Open) then
    setErrorString (tr "Messages can only be sent when the socket is open.") ;;
    setStatus Error ;;
    Eff.ret 0%Z
  else viaSocket (QWebSocketThreaded.sendBinaryMessage message).

Definition open : M unit :=
  q <- Eff.get ;;
  if m_componentCompleted q && m_isActive q && QUrl_isValid (m_url q)
     && hasSocket q
  then viaSocket (QWebSocketThreaded.open (m_url q))
  else Eff.ret tt.

Definition close : M unit :=
  q <- Eff.get ;;
  if m_componentCompleted q && hasSocket q
  then viaSocket (QWebSocketThreaded.close CloseCodeNormal "")
  else Eff.ret tt.

Definition setUrl (url : QUrl) : M unit :=
  q <- Eff.get ;;
  if String.eqb (m_url q) url then Eff.ret tt
  else
    (if hasSocket q && Status_eqb (m_status q) Open
     then viaSocket (QWebSocketThreaded.close CloseCodeNormal "")
     else Eff.ret tt) ;;
    Eff.modify (with_url url) ;;
    Eff.emit urlChanged ;;
    open.

Definition classBegin : M unit :=
  Eff.modify (with_componentCompleted false) ;;
  Eff.modify (with_errorString (tr "QQmlWebSocketThreaded is not ready.")) ;;
  Eff.modify (with_status Closed).

(** [m_webSocket.reset(socket)]; the four [connect] calls are the table
    [deliver] below. *)
Definition setSocket (socket : option QWebSocketThreaded.t) : M unit :=
  Eff.modify (with_webSocket socket).

(** [garbage] is the uninitialised [m_state] of the fresh facade. *)
Definition componentComplete (garbage : SocketState) : M unit :=
  setSocket (Some (QWebSocketThreaded.new garbage)) ;;
  Eff.modify (with_componentCompleted true) ;;
  open.

Definition onError (error : SocketError) : M unit :=
  e <- viaSocket QWebSocketThreaded.errorString ;;
  setErrorString e ;;
  setStatus Error.

Definition onStateChanged (state : SocketState) : M unit :=
  match state with
  | ConnectingState | BoundState | HostLookupState => setStatus Connecting
  | UnconnectedState => setStatus Closed
  | ConnectedState => setStatus Open
  | ClosingState => setStatus Closing
  | _ => setStatus Connecting
  end.

Definition setActive (active : bool) : M unit :=
  q <- Eff.get ;;
  if Bool.eqb (m_isActive q) active then Eff.ret tt
  else
    Eff.modify (with_isActive active) ;;
    Eff.emit (activeChanged active) ;;
    q' <- Eff.get ;;
    if negb (m_componentCompleted q') then Eff.ret tt
    else if m_isActive q' then open else close.

(** The second constructor wraps an existing facade. *)
Definition newFrom (socket : QWebSocketThreaded.t) : Eff.outcome t Signal unit :=
  (setSocket (Some socket) ;;
   s <- viaSocket QWebSocketThreaded.state ;;
   onStateChanged s)
    {| m_webSocket := None; m_status := Closed;
       m_url := QWebSocketThreaded.m_url socket;
       m_isActive := true; m_componentCompleted := true;
       m_errorString := QWebSocketThreaded.m_errorString socket |}.

(** The connections [setSocket] makes from the facade's signals. *)
Definition deliver (s : QWebSocketThreaded.Signal) : M unit :=
  match s with
  | QWebSocketThreaded.textMessageReceived m => Eff.emit (textMessageReceived m)
  | QWebSocketThreaded.binaryMessageReceived m => Eff.emit (binaryMessageReceived m)
  | QWebSocketThreaded.error e => onError e
  | QWebSocketThreaded.stateChanged st => onStateChanged st
  | _ => Eff.ret tt
  end.

(** An engine event reaches the facade's handler (queued connection); the
    signal the handler emits, its last statement, runs the connected slot
    of the adapter.  Without a facade there is no engine to raise it. *)
Definition fromEngine (e : QWebSocketThreaded.EngineEvent) : M unit :=
  q <- Eff.get ;;
  match m_webSocket q with
  | None => Eff.ret tt
  | Some w =>
      match QWebSocketThreaded.handle e w with
      | Eff.Done _ w' o =>
          Eff.modify (with_webSocket (Some w')) ;;
          Eff.forEach (fun s => Eff.emit (socket s) ;; deliver s) o
      | Eff.NullDeref _ => Eff.nullDeref
      end
  end.

(** What the owner of the adapter, and the engine behind it, can do. *)
Inductive Call : Type :=
| CallSendTextMessage (message : QString)
| CallSendBinaryMessage (message : QByteArray)
| CallSetUrl (url : QUrl)
| CallSetActive (active : bool)
| CallClassBegin
| CallComponentComplete (garbage : SocketState)
| CallEngine (e : QWebSocketThreaded.EngineEvent).

Definition step (c : Call) : M unit :=
  match c with
  | CallSendTextMessage m => sendTextMessage m ;; Eff.ret tt
  | CallSendBinaryMessage m => sendBinaryMessage m ;; Eff.ret tt
  | CallSetUrl u => setUrl u
  | CallSetActive a => setActive a
  | CallClassBegin => classBegin
  | CallComponentComplete g => componentComplete g
  | CallEngine e => fromEngine e
  end.

Definition run (cs : list Call) : M unit := Eff.forEach step cs.

(** The [statusChanged] notifications among emitted signals, in order. *)
Fixpoint statusNotifications (out : list Signal) : list Status :=
  match out with
  | [] => []
  | statusChanged s :: out' => s :: statusNotifications out'
  | _ :: out' => statusNotifications out'
  end.

(** The facade signals among emitted signals, in order. *)
Fixpoint socketSignals (out : list Signal) : list QWebSocketThreaded.Signal :=
  match out with
  | [] => []
  | socket s :: out' => s :: socketSignals out'
  | _ :: out' => socketSignals out'
  end.

(** The status each engine state is shown as (the [switch] of
    [onStateChanged], read as a table). *)
Definition statusFor (state : SocketState) : Status :=
  match state with
  | UnconnectedState => Closed
  | ConnectedState => Open
  | ClosingState => Closing
  | _ => Connecting
  end.

(** A list of statuses with every entry equal to the one before it
    (starting from [cur]) removed. *)
Fixpoint changes (cur : Status) (l : list Status) : list Status :=
  match l with
  | [] => []
  | s :: l' => if Status_eqb cur s then changes cur l' else s :: changes s l'
  end.

End WithQt.
End QQmlWebSocketThreaded.

(** ** The handshake value objects

    [handshakerequest_p.h] and [handshakeresponse_p.h] are included by the
    server but their code is not part of the sources at hand. *)

Module Handshake.

(** Modelled from the spec: [QWebSocketProtocol::Version] and
    [currentVersion()] (qwebsocketprotocol.h is missing): a version is the
    number sent in Sec-WebSocket-Version, the current one is 13 (the server
    source: "we only support V13"). *)
Definition Version : Type := Z.
Definition currentVersion : Version := 13%Z.

(** Qt's [QTcpSocket] as the server uses it: its descriptor, the peer's port
    and the head of the HTTP request that is readable from it. *)
Record TcpSocket : Type := mkTcpSocket {
  socketDescriptor : Z;
  peerPort : Z;
  readableMethod : string;
  readablePath : string;
  readableHeaders : list (string * string)
}.

(** Modelled from the spec: HandshakeRequest (handshakerequest_p.h is
    missing): "request holds method, path, headers (including Upgrade,
    Connection, Sec-WebSocket-Key, Sec-WebSocket-Version, Origin, requested
    subprotocols/extensions)". *)
Record HandshakeRequest : Type := mkRequest {
  req_port : Z;
  req_isSecure : bool;
  req_method : string;
  req_path : string;
  req_headers : list (string * string)
}.

(** Modelled from the spec: the stream extraction [textStream >> request]
    (missing with HandshakeRequest): the request takes the method, path and
    headers that are readable from the stream. *)
Definition readFrom (port : Z) (isSecure : bool) (sock : TcpSocket) : HandshakeRequest :=
  {| req_port := port; req_isSecure := isSecure;
     req_method := readableMethod sock;
     req_path := readablePath sock;
     req_headers := readableHeaders sock |}.

(** Modelled from the spec: the accessors of HandshakeRequest (missing):
    a header by its name, the Origin, the Sec-WebSocket-Key. *)
Fixpoint header (name : string) (hs : list (string * string)) : option string :=
  match hs with
  | [] => None
  | (n, v) :: hs' => if String.eqb n name then Some v else header name hs'
  end.

Definition headerOr (name : string) (r : HandshakeRequest) : string :=
  match header name (req_headers r) with Some v => v | None => "" end.

Definition getOrigin (r : HandshakeRequest) : string := headerOr "Origin" r.
Definition getKey (r : HandshakeRequest) : option string :=
  header "Sec-WebSocket-Key" (req_headers r).

(** Modelled from the spec: "case-insensitive, token-set comparison" of a
    header value (part of the missing HandshakeRequest): ASCII lower-casing,
    comma-separated tokens with blanks removed. *)
Definition lowerAscii (c : Ascii.ascii) : Ascii.ascii :=
  let n := Ascii.nat_of_ascii c in
  if (65 <=? n)%nat && (n <=? 90)%nat then Ascii.ascii_of_nat (n + 32) else c.

Fixpoint lower (s : string) : string :=
  match s with
  | EmptyString => EmptyString
  | String c s' => String (lowerAscii c) (lower s')
  end.

Fixpoint tokensFrom (s : string) (cur : string) : list string :=
  match s with
  | EmptyString => [cur]
  | String c s' =>
      if Ascii.eqb c ","%char then cur :: tokensFrom s' ""
      else if Ascii.eqb c " "%char then tokensFrom s' cur
      else tokensFrom s' (cur ++ String c "")%string
  end.

Definition tokens (s : string) : list string := tokensFrom s "".

Definition hasToken (tok : string) (value : string) : bool :=
  existsb (fun t => String.eqb (lower t) (lower tok)) (tokens value).

(** Modelled from the spec: the versions, subprotocols and extensions a
    request asks for (accessors of the missing HandshakeRequest). *)
Definition getVersions (r : HandshakeRequest) : list Version :=
  match header "Sec-WebSocket-Version" (req_headers r) with
  | None => []
  | Some v =>
      flat_map (fun t => match DecimalString.NilEmpty.uint_of_string t with
                         | Some u => if String.eqb t "" then [] else [Z.of_uint u]
                         | None => []
                         end) (tokens v)
  end.

Definition getProtocols (r : HandshakeRequest) : list string :=
  match header "Sec-WebSocket-Protocol" (req_headers r) with
  | None => [] | Some v => tokens v end.
Definition getExtensions (r : HandshakeRequest) : list string :=
  match header "Sec-WebSocket-Extensions" (req_headers r) with
  | None => [] | Some v => tokens v end.

(** Modelled from the spec: the validation of a complete request (part of
    the missing HandshakeRequest/HandshakeResponse): "request method must be
    GET"; "Required headers present: Upgrade: websocket, a Connection header
    containing Upgrade (case-insensitive, token-set comparison),
    Sec-WebSocket-Key, Sec-WebSocket-Version matching a supported
    version". *)
Definition requiredHeadersPresent (r : HandshakeRequest) : bool :=
  String.eqb (req_method r) "GET"
  && match header "Upgrade" (req_headers r) with
     | Some v => String.eqb v "websocket" | None => false end
  && match header "Connection" (req_headers r) with
     | Some v => hasToken "Upgrade" v | None => false end
  && match getKey r with Some _ => true | None => false end.

(** Modelled from the spec: "Sec-WebSocket-Version matching a supported
    version" (part of the missing HandshakeResponse). *)
Definition matchingVersions (r : HandshakeRequest) (supported : list Version) : list Version :=
  filter (fun v => existsb (Z.eqb v) supported) (getVersions r).

(** Modelled from the spec: HandshakeResponse (handshakeresponse_p.h is
    missing): "response holds status line, headers, and a
    validity/upgradeability flag".  The status is 101 on success with the
    computed Sec-WebSocket-Accept and the negotiated values, and otherwise
    "an HTTP error status communicating the rejection reason (e.g.,
    missing/invalid headers -> 400-class status), with no upgrade
    attempted". *)
Record HandshakeResponse : Type := mkResponse {
  isValid : bool;
  canUpgrade : bool;
  statusCode : Z;
  acceptKey : option string;
  protocols : list string;
  extensions : list string
}.

Section Response.
(** base64(SHA-1(key ++ GUID)): the key derivation of RFC 6455. *)
Variable calculateAcceptKey : string -> string.

(** Modelled from the spec: the constructor of HandshakeResponse
    (missing): origin check, required headers, supported version, then
    101 with the intersecting subprotocols and extensions, or a 400-class
    rejection. A response is always produced. *)
Definition HandshakeResponse_new
    (request : HandshakeRequest) (serverName : QString) (isOriginAllowed : bool)
    (supportedVersions : list Version)
    (supportedProtocols supportedExtensions : list QString) : HandshakeResponse :=
  if negb isOriginAllowed then
    mkResponse true false 403 None [] []
  else
    match requiredHeadersPresent request, getKey request,
          matchingVersions request supportedVersions with
    | true, Some key, _ :: _ =>
        mkResponse true true 101 (Some (calculateAcceptKey key))
          (filter (fun p => existsb (String.eqb p) supportedProtocols) (getProtocols request))
          (filter (fun e => existsb (String.eqb e) supportedExtensions) (getExtensions request))
    | _, _, _ => mkResponse true false 400 None [] []
    end.
End Response.

End Handshake.

(** ** QWebSocketServer: handshake and the queue of pending connections *)

Module QWebSocketServer.
Import Handshake.

(** The part of [QTcpServer] the server delegates to: the limit set by
    [setMaxPendingConnections], an [int] ("The default is 30"). *)
Record QTcpServer : Type := mkTcpServer {
  tcp_maxPendingConnections : Z
}.

Definition QTcpServer_new : QTcpServer := {| tcp_maxPendingConnections := 30 |}.

Section WithEngine.
(** [QWebSocket] and its static [upgradeFrom] come from [qwebsocket.h];
    [respond] stands for the constructor of [HandshakeResponse]. *)
Variable QWebSocket : Type.
Variable upgradeFrom :
  TcpSocket -> HandshakeRequest -> HandshakeResponse -> option QWebSocket.
Variable respond :
  HandshakeRequest -> QString -> bool -> list Version -> list QString ->
  list QString -> HandshakeResponse.

(** What a member function does to the objects around the server: to the
    raw stream with descriptor [fd], to a web socket, to the log; and the
    server's own signal [newConnection]. *)
Inductive Effect : Type :=
| newConnection
| tcpConnectReadyRead (fd : Z)
| tcpDisconnectReadyRead (fd : Z)
| tcpWrite (fd : Z) (response : HandshakeResponse)
| tcpFlush (fd : Z)
| tcpClose (fd : Z)
| wsUpgradeFrom (fd : Z)
| wsSetParent (pWebSocket : QWebSocket)
| wsClose (pWebSocket : QWebSocket) (closeCode : CloseCode) (reason : QString)
| wsDeleteLater (pWebSocket : QWebSocket)
| tcpServerClose
| tcpServerDeleteLater
| qDebug (message : string).

Record t : Type := mk {
  m_pTcpServer : QTcpServer;
  m_serverName : QString;
  m_pendingConnections : list QWebSocket      (* QQueue: head is the front *)
}.

Definition with_pendingConnections (q : list QWebSocket) (s : t) : t :=
  mk (m_pTcpServer s) (m_serverName s) q.
Definition with_tcpServer (p : QTcpServer) (s : t) : t :=
  mk p (m_serverName s) (m_pendingConnections s).

Definition M := Eff.M t Effect.

Definition new (serverName : QString) : t :=
  {| m_pTcpServer := QTcpServer_new;
     m_serverName := serverName;
     m_pendingConnections := [] |}.

(** [QQueue::dequeue] on a non-empty queue and [QQueue::enqueue]. *)
Definition enqueue (pWebSocket : QWebSocket) : M unit :=
  Eff.modify (fun s => with_pendingConnections (m_pendingConnections s ++ [pWebSocket]) s).

(** The destructor's loop, one iteration per queued socket. *)
Fixpoint closeAll (q : list QWebSocket) : M unit :=
  match q with
  | [] => Eff.ret tt
  | pWebSocket :: q' =>
      Eff.modify (with_pendingConnections q') ;;
      Eff.emit (wsClose pWebSocket CC_GOING_AWAY "Server closed.") ;;
      Eff.emit (wsDeleteLater pWebSocket) ;;
      closeAll q'
  end.

Definition destroy : M unit :=
  q <- Eff.gets m_pendingConnections ;;
  closeAll q ;;
  Eff.emit tcpServerDeleteLater.

Definition close : M unit := Eff.emit tcpServerClose.

Definition hasPendingConnections : M bool :=
  q <- Eff.gets m_pendingConnections ;;
  Eff.ret (negb (match q with [] => true | _ => false end)).

Definition maxPendingConnections : M Z :=
  Eff.gets (fun s => tcp_maxPendingConnections (m_pTcpServer s)).

Definition setMaxPendingConnections (numConnections : Z) : M unit :=
  Eff.modify (with_tcpServer (mkTcpServer numConnections)).

Definition addPendingConnection (pWebSocket : QWebSocket) : M unit :=
  q <- Eff.gets m_pendingConnections ;;
  maxPending <- maxPendingConnections ;;
  if (Z.of_nat (length q) <? maxPending)%Z
  then enqueue pWebSocket
  else Eff.ret tt.

(** [None] is the null pointer. *)
Definition nextPendingConnection : M (option QWebSocket) :=
  q <- Eff.gets m_pendingConnections ;;
  match q with
  | pWebSocket :: q' =>
      Eff.modify (with_pendingConnections q') ;;
      Eff.ret (Some pWebSocket)
  | [] => Eff.ret None
  end.

Definition supportedVersions : list Version := [currentVersion].
Definition supportedProtocols : list QString := [].
Definition supportedExtensions : list QString := [].

Definition isOriginAllowed (origin : QString) : bool := true.

(** [pTcpSocket] is [m_pTcpServer->nextPendingConnection()]. *)
Definition onNewConnection (pTcpSocket : TcpSocket) : M unit :=
  Eff.emit (tcpConnectReadyRead (socketDescriptor pTcpSocket)).

(** [sender] is [qobject_cast<QTcpSocket*>(sender())], [None] when 0. *)
Definition onCloseConnection (sender : option TcpSocket) : M unit :=
  match sender with
  | Some pTcpSocket => Eff.emit (tcpClose (socketDescriptor pTcpSocket))
  | None => Eff.ret tt
  end.

Definition handshakeReceived (sender : option TcpSocket) : M unit :=
  match sender with
  | Some pTcpSocket =>
      let fd := socketDescriptor pTcpSocket in
      let isSecure := false in
      let request := readFrom (peerPort pTcpSocket) isSecure pTcpSocket in
      serverName <- Eff.gets m_serverName ;;
      let response := respond request serverName
                              (isOriginAllowed (getOrigin request))
                              supportedVersions supportedProtocols supportedExtensions in
      Eff.emit (tcpDisconnectReadyRead fd) ;;
      success <-
        (if isValid response then
           Eff.emit (tcpWrite fd response) ;;
           Eff.emit (tcpFlush fd) ;;
           if canUpgrade response then
             Eff.emit (wsUpgradeFrom fd) ;;
             match upgradeFrom pTcpSocket request response with
             | Some pWebSocket =>
                 Eff.emit (wsSetParent pWebSocket) ;;
                 addPendingConnection pWebSocket ;;
                 Eff.emit newConnection ;;
                 Eff.ret true
             | None =>
                 Eff.emit (qDebug "WebSocketServer::handshakeReceived: Upgrading to WebSocket failed.") ;;
                 Eff.ret false
             end
           else
             Eff.emit (qDebug "WebSocketServer::handshakeReceived: Cannot upgrade to websocket.") ;;
             Eff.ret false
         else
           Eff.emit (qDebug "WebSocketServer::handshakeReceived: Invalid response. This should not happen!!!") ;;
           Eff.ret false) ;;
      if negb success then
        Eff.emit (qDebug "WebSocketServer::handshakeReceived: Closing socket because of invalid or unsupported request") ;;
        Eff.emit (tcpClose fd)
      else Eff.ret tt
  | None =>
      Eff.emit (qDebug "WebSocketServerImp::handshakeReceived: Sender socket is NULL. This should not happen!!!")
  end.

(** Upgrade completions and accept calls, as the server meets them. *)
Inductive Call : Type :=
| CallOnNewConnection (pTcpSocket : TcpSocket)
| CallHandshakeReceived (sender : option TcpSocket)
| CallAddPendingConnection (pWebSocket : QWebSocket)
| CallNextPendingConnection
| CallOnCloseConnection (sender : option TcpSocket).

Definition step (c : Call) : M unit :=
  match c with
  | CallOnNewConnection sock => onNewConnection sock
  | CallHandshakeReceived sender => handshakeReceived sender
  | CallAddPendingConnection ws => addPendingConnection ws
  | CallNextPendingConnection => nextPendingConnection ;; Eff.ret tt
  | CallOnCloseConnection sender => onCloseConnection sender
  end.

Definition run (cs : list Call) : M unit := Eff.forEach step cs.

(** Accepting [n] times in a row: what the caller is handed, in order. *)
Fixpoint acceptN (n : nat) : M (list (option QWebSocket)) :=
  match n with
  | O => Eff.ret []
  | S n' =>
      r <- nextPendingConnection ;;
      rs <- acceptN n' ;;
      Eff.ret (r :: rs)
  end.

Definition queueLength (s : t) : Z := Z.of_nat (length (m_pendingConnections s)).
Definition maxPending (s : t) : Z := tcp_maxPendingConnections (m_pTcpServer s).

(** A close of [ws] with the "going away" code appears in a log. *)
Definition closedGoingAway (ws_eqb : QWebSocket -> QWebSocket -> bool)
    (ws : QWebSocket) (out : list Effect) : bool :=
  existsb (fun e => match e with
                    | wsClose w code _ => ws_eqb w ws && Z.eqb code CC_GOING_AWAY
                    | _ => false
                    end) out.

End WithEngine.

Arguments newConnection {QWebSocket}.
Arguments tcpConnectReadyRead {QWebSocket} fd.
Arguments tcpDisconnectReadyRead {QWebSocket} fd.
Arguments tcpWrite {QWebSocket} fd response.
Arguments tcpFlush {QWebSocket} fd.
Arguments tcpClose {QWebSocket} fd.
Arguments wsUpgradeFrom {QWebSocket} fd.
Arguments wsSetParent {QWebSocket} pWebSocket.
Arguments wsClose {QWebSocket} pWebSocket closeCode reason.
Arguments wsDeleteLater {QWebSocket} pWebSocket.
Arguments tcpServerClose {QWebSocket}.
Arguments tcpServerDeleteLater {QWebSocket}.
Arguments qDebug {QWebSocket} message.
Arguments m_pTcpServer {QWebSocket} t.
Arguments m_serverName {QWebSocket} t.
Arguments m_pendingConnections {QWebSocket} t.
Arguments queueLength {QWebSocket} s.
Arguments maxPending {QWebSocket} s.
Arguments CallOnNewConnection {QWebSocket} pTcpSocket.
Arguments CallHandshakeReceived {QWebSocket} sender.
Arguments CallAddPendingConnection {QWebSocket} pWebSocket.
Arguments CallNextPendingConnection {QWebSocket}.
Arguments CallOnCloseConnection {QWebSocket} sender.

End QWebSocketServer.

(** ** Properties stated over the embedding *)

Module Properties.
Import QQmlWebSocketThreaded.

(** Engine state changes [states], raised one after the other. *)
Definition stateChanges (states : list SocketState) : list Call :=
  map (fun st => CallEngine (QWebSocketThreaded.EvStateChanged st)) states.

(** One [statusChanged] notification for each engine state change, the
    corresponding one, in the same order. *)
Definition relaysEveryStateChange (tr : string -> QString) (isValid : QUrl -> bool)
    (q : t) (states : list SocketState) : Prop :=
  statusNotifications (Eff.outputOf (run tr isValid (stateChanges states) q))
  = map statusFor states.

(** A successful upgrade against a full queue closes the new connection
    with the "going away" code. *)
Definition closesWhenQueueFull {QWebSocket : Type}
    (ws_eqb : QWebSocket -> QWebSocket -> bool)
    (upgradeFrom : Handshake.TcpSocket -> Handshake.HandshakeRequest ->
                   Handshake.HandshakeResponse -> option QWebSocket)
    (respond : Handshake.HandshakeRequest -> QString -> bool ->
               list Handshake.Version -> list QString -> list QString ->
               Handshake.HandshakeResponse)
    (s : QWebSocketServer.t QWebSocket) (sock : Handshake.TcpSocket) : Prop :=
  let request := Handshake.readFrom (Handshake.peerPort sock) false sock in
  let response := respond request (QWebSocketServer.m_serverName s)
                          (QWebSocketServer.isOriginAllowed (Handshake.getOrigin request))
                          QWebSocketServer.supportedVersions
                          QWebSocketServer.supportedProtocols
                          QWebSocketServer.supportedExtensions in
  forall pWebSocket,
    Handshake.isValid response = true ->
    Handshake.canUpgrade response = true ->
    upgradeFrom sock request response = Some pWebSocket ->
    (QWebSocketServer.maxPending s <= QWebSocketServer.queueLength s)%Z ->
    QWebSocketServer.closedGoingAway QWebSocket ws_eqb pWebSocket
      (Eff.outputOf (QWebSocketServer.handshakeReceived QWebSocket upgradeFrom respond
                       (Some sock) s)) = true.

(** What a send that is refused leaves behind and emits: the description
    and the status are set through [setErrorString] and [setStatus]. *)
Definition refused (tr : string -> QString) (q : t) : t :=
  with_status Error
    (with_errorString (tr "Messages can only be sent when the socket is open.") q).

Definition refusal (tr : string -> QString) (q : t) : list Signal :=
  (if String.eqb (m_errorString q)
                 (tr "Messages can only be sent when the socket is open.")
   then [] else [errorStringChanged (tr "Messages can only be sent when the socket is open.")])
    ++ (if Status_eqb (m_status q) Error then [] else [statusChanged Error]).

(** The facade an adapter owns, if any, has never had a description
    written to its [m_errorString]. *)
Definition facadeClean (q : t) : Prop :=
  forall w, m_webSocket q = Some w -> QWebSocketThreaded.m_errorString w = "".

(** A computation keeps [facadeClean] when started from [q]. *)
Definition keepsClean {A} (m : M A) (q : t) : Prop :=
  facadeClean q -> forall a q' out, m q = Eff.Done a q' out -> facadeClean q'.

(** Concrete objects used to run the code. *)
Definition noTr (s : string) : QString := s.
Definition anyUrlValid (u : QUrl) : bool := negb (String.eqb u "").

(** An adapter declared in QML with a url, completed, and whose engine has
    connected. *)
Definition openAdapter : Eff.outcome t Signal unit :=
  run noTr anyUrlValid
      [CallClassBegin; CallSetUrl "ws://host/"; CallSetActive true;
       CallComponentComplete UnconnectedState;
       CallEngine (QWebSocketThreaded.EvStateChanged ConnectingState);
       CallEngine (QWebSocketThreaded.EvStateChanged ConnectedState);
       CallEngine QWebSocketThreaded.EvConnected]
      new.

(** An adapter that was just completed: its status is still [Closed]. *)
Definition completedAdapter : t :=
  {| m_webSocket := Some (QWebSocketThreaded.mk "" "ws://host/" UnconnectedState);
     m_status := Closed; m_url := "ws://host/"; m_isActive := true;
     m_componentCompleted := true; m_errorString := "" |}.

(** Web sockets named by the descriptor of the stream they were upgraded
    from; an engine whose upgrade always succeeds. *)
Definition upgradeByDescriptor (sock : Handshake.TcpSocket)
    (_ : Handshake.HandshakeRequest) (_ : Handshake.HandshakeResponse) : option Z :=
  Some (Handshake.socketDescriptor sock).

Definition echoKey (key : string) : string := key.

Definition goodSocket (fd : Z) : Handshake.TcpSocket :=
  Handshake.mkTcpSocket fd 50000 "GET" "/chat"
    [("Host", "server.example.com"); ("Upgrade", "websocket");
     ("Connection", "keep-alive, Upgrade");
     ("Sec-WebSocket-Key", "dGhlIHNhbXBsZSBub25jZQ==");
     ("Sec-WebSocket-Version", "13")].

(** The same request without its [Sec-WebSocket-Key]. *)
Definition keylessSocket (fd : Z) : Handshake.TcpSocket :=
  Handshake.mkTcpSocket fd 50000 "GET" "/chat"
    [("Host", "server.example.com"); ("Upgrade", "websocket");
     ("Connection", "keep-alive, Upgrade");
     ("Sec-WebSocket-Version", "13")].

(** A server whose queue already holds the default maximum of 30. *)
Definition fullServer : QWebSocketServer.t Z :=
  QWebSocketServer.mk Z QWebSocketServer.QTcpServer_new "echo"
    (map Z.of_nat (seq 1 30)).

(** Thirty-one streams completing a valid upgrade, descriptors 1 to 31. *)
Definition thirtyOneUpgrades : list (QWebSocketServer.Call Z) :=
  map (fun i => QWebSocketServer.CallHandshakeReceived (Some (goodSocket (Z.of_nat i))))
      (seq 1 31).

(** A server with two connections waiting. *)
Definition twoWaiting : QWebSocketServer.t Z :=
  QWebSocketServer.mk Z QWebSocketServer.QTcpServer_new "echo" [1%Z; 2%Z].

End Properties.

(** ** Runs of calls: what is expected of them *)

Module Behaviour.

(** The one signal each call on the facade emits. *)
Definition emitted (c : QWebSocketThreaded.Call) : QWebSocketThreaded.Signal :=
  match c with
  | QWebSocketThreaded.CallClose code reason => QWebSocketThreaded.closeCommand code reason
  | QWebSocketThreaded.CallOpen url => QWebSocketThreaded.openCommand url
  | QWebSocketThreaded.CallSendTextMessage m => QWebSocketThreaded.sendTextMessageCommand m
  | QWebSocketThreaded.CallSendBinaryMessage d => QWebSocketThreaded.sendBinaryMessageCommand d
  | QWebSocketThreaded.CallEngine e =>
      match e with
      | QWebSocketThreaded.EvConnected => QWebSocketThreaded.connected
      | QWebSocketThreaded.EvDisconnected => QWebSocketThreaded.disconnected
      | QWebSocketThreaded.EvStateChanged st => QWebSocketThreaded.stateChanged st
      | QWebSocketThreaded.EvTextMessageReceived m => QWebSocketThreaded.textMessageReceived m
      | QWebSocketThreaded.EvBinaryMessageReceived m => QWebSocketThreaded.binaryMessageReceived m
      | QWebSocketThreaded.EvError err => QWebSocketThreaded.error err
      end
  end.

(** The state of the last [stateChanged] among the calls, [s0] if none. *)
Fixpoint lastState (cs : list QWebSocketThreaded.Call) (s0 : SocketState) : SocketState :=
  match cs with
  | [] => s0
  | QWebSocketThreaded.CallEngine (QWebSocketThreaded.EvStateChanged st) :: cs' =>
      lastState cs' st
  | _ :: cs' => lastState cs' s0
  end.

(** The url of the last [open] among the calls, [u0] if none. *)
Fixpoint lastUrl (cs : list QWebSocketThreaded.Call) (u0 : QUrl) : QUrl :=
  match cs with
  | [] => u0
  | QWebSocketThreaded.CallOpen url :: cs' => lastUrl cs' url
  | _ :: cs' => lastUrl cs' u0
  end.

(** The adapter's own signals among emitted signals, in order. *)
Fixpoint ownSignals (out : list QQmlWebSocketThreaded.Signal)
  : list QQmlWebSocketThreaded.Signal :=
  match out with
  | [] => []
  | QQmlWebSocketThreaded.socket _ :: out' => ownSignals out'
  | s :: out' => s :: ownSignals out'
  end.

(** Engine events other than state changes and errors, and what the adapter
    emits for each: messages are passed on, [connected] and [disconnected]
    have no connection in [setSocket]. *)
Definition isPlain (e : QWebSocketThreaded.EngineEvent) : bool :=
  match e with
  | QWebSocketThreaded.EvStateChanged _ | QWebSocketThreaded.EvError _ => false
  | _ => true
  end.

Definition passedOn (e : QWebSocketThreaded.EngineEvent)
  : list QQmlWebSocketThreaded.Signal :=
  match e with
  | QWebSocketThreaded.EvTextMessageReceived m =>
      [QQmlWebSocketThreaded.textMessageReceived m]
  | QWebSocketThreaded.EvBinaryMessageReceived m =>
      [QQmlWebSocketThreaded.binaryMessageReceived m]
  | _ => []
  end.

(** An [open] command carries a valid url. *)
Definition opensValidUrl (isValid : QUrl -> bool) (s : QQmlWebSocketThreaded.Signal) : Prop :=
  match s with
  | QQmlWebSocketThreaded.socket (QWebSocketThreaded.openCommand u) => isValid u = true
  | _ => True
  end.

(** A computation started in [s] runs to its end, and its result and
    final state satisfy [Q]. *)
Definition ends {S E A} (m : Eff.M S E A) (Q : A -> S -> list E -> Prop) (s : S) : Prop :=
  exists a s' out, m s = Eff.Done a s' out /\ Q a s' out.

(** An adapter whose status is [Open] owns a facade. *)
Definition openHasSocket (q : QQmlWebSocketThreaded.t) : Prop :=
  QQmlWebSocketThreaded.m_status q = QQmlWebSocketThreaded.Open ->
  QQmlWebSocketThreaded.m_webSocket q <> None.

Section Serving.
Variable QWebSocket : Type.
Variable upgradeFrom :
  Handshake.TcpSocket -> Handshake.HandshakeRequest ->
  Handshake.HandshakeResponse -> option QWebSocket.
Variable respond :
  Handshake.HandshakeRequest -> QString -> bool -> list Handshake.Version ->
  list QString -> list QString -> Handshake.HandshakeResponse.

(** The calls of a run, with [setMaxPendingConnections] among them. *)
Inductive ServerCall : Type :=
| Plain (c : QWebSocketServer.Call QWebSocket)
| SetMaxPendingConnections (numConnections : Z).

(** Runs the calls and collects, in order, the connections that
    [nextPendingConnection] hands to the caller (null results are left
    out). *)
Fixpoint serve (cs : list ServerCall)
  : Eff.M (QWebSocketServer.t QWebSocket) (QWebSocketServer.Effect QWebSocket)
          (list QWebSocket) :=
  match cs with
  | [] => Eff.ret []
  | Plain QWebSocketServer.CallNextPendingConnection :: cs' =>
      r <- QWebSocketServer.nextPendingConnection QWebSocket ;;
      rs <- serve cs' ;;
      Eff.ret (match r with Some ws => ws :: rs | None => rs end)
  | Plain c :: cs' =>
      QWebSocketServer.step QWebSocket upgradeFrom respond c ;;
      serve cs'
  | SetMaxPendingConnections n :: cs' =>
      QWebSocketServer.setMaxPendingConnections QWebSocket n ;;
      serve cs'
  end.

(** How often [newConnection] and [tcpClose fd] occur in a log. *)
Fixpoint announced (out : list (QWebSocketServer.Effect QWebSocket)) : nat :=
  match out with
  | [] => 0
  | QWebSocketServer.newConnection :: out' => S (announced out')
  | _ :: out' => announced out'
  end.

Fixpoint closedStream (fd : Z) (out : list (QWebSocketServer.Effect QWebSocket)) : nat :=
  match out with
  | [] => 0
  | QWebSocketServer.tcpClose fd' :: out' =>
      if Z.eqb fd' fd then S (closedStream fd out') else closedStream fd out'
  | _ :: out' => closedStream fd out'
  end.

End Serving.

(** An adapter whose engine is connected, and an engine whose upgrade
    always fails. *)
Definition connectedAdapter : QQmlWebSocketThreaded.t :=
  {| QQmlWebSocketThreaded.m_webSocket :=
       Some (QWebSocketThreaded.mk "" "ws://host/" ConnectedState);
     QQmlWebSocketThreaded.m_status := QQmlWebSocketThreaded.Open;
     QQmlWebSocketThreaded.m_url := "ws://host/";
     QQmlWebSocketThreaded.m_isActive := true;
     QQmlWebSocketThreaded.m_componentCompleted := true;
     QQmlWebSocketThreaded.m_errorString := "" |}.

Definition upgradeNever (_ : Handshake.TcpSocket)
    (_ : Handshake.HandshakeRequest) (_ : Handshake.HandshakeResponse) : option Z :=
  None.

Arguments Plain {QWebSocket} c.
Arguments SetMaxPendingConnections {QWebSocket} numConnections.
Arguments announced {QWebSocket} out.
Arguments closedStream {QWebSocket} fd out.

End Behaviour.

(** * Proofs *)

(** ** Equalities on the enumerations *)

Lemma Status_eqb_spec (a b : QQmlWebSocketThreaded.Status) :
  reflect (a = b) (QQmlWebSocketThreaded.Status_eqb a b).
Proof. destruct a, b; simpl; constructor; congruence. Qed.

Lemma Status_eqb_refl (a : QQmlWebSocketThreaded.Status) :
  QQmlWebSocketThreaded.Status_eqb a a = true.
Proof. now destruct a. Qed.

Lemma Status_eqb_neq (a b : QQmlWebSocketThreaded.Status) :
  a <> b -> QQmlWebSocketThreaded.Status_eqb a b = false.
Proof. intros H. destruct (Status_eqb_spec a b); congruence. Qed.

(** ** The adapter's two setters, as equations *)

Section Adapter.
Import QQmlWebSocketThreaded Properties.
Variable tr : string -> QString.
Variable isValid : QUrl -> bool.

Lemma with_errorString_same (q : t) : with_errorString (m_errorString q) q = q.
Proof. now destruct q. Qed.

Lemma with_status_same (q : t) : with_status (m_status q) q = q.
Proof. now destruct q. Qed.

Lemma setErrorString_eq (e : QString) (q : t) :
  setErrorString e q =
  Eff.Done tt (with_errorString e q)
    (if String.eqb (m_errorString q) e then [] else [errorStringChanged e]).
Proof.
  unfold setErrorString, Eff.bind, Eff.gets, Eff.modify, Eff.emit, Eff.ret.
  destruct (String.eqb_spec (m_errorString q) e) as [<- | _]; simpl.
  - now rewrite with_errorString_same.
  - reflexivity.
Qed.

Lemma setStatus_same (s : Status) (q : t) :
  m_status q = s -> setStatus s q = Eff.Done tt q [].
Proof.
  intros <-. unfold setStatus, Eff.bind, Eff.gets. simpl.
  now rewrite Status_eqb_refl.
Qed.

Lemma setStatus_Error (q : t) :
  setStatus Error q =
  Eff.Done tt (with_status Error q)
    (if Status_eqb (m_status q) Error then [] else [statusChanged Error]).
Proof.
  unfold setStatus, Eff.bind, Eff.gets, Eff.modify, Eff.emit, Eff.ret. simpl.
  destruct (Status_eqb_spec (m_status q) Error) as [E | _]; simpl.
  - now rewrite <- E, with_status_same.
  - reflexivity.
Qed.

Lemma setStatus_change (s : Status) (q : t) :
  m_status q <> s -> s <> Error ->
  setStatus s q =
  Eff.Done tt (with_errorString "" (with_status s q))
    ((if String.eqb (m_errorString q) "" then [] else [errorStringChanged ""])
       ++ [statusChanged s]).
Proof.
  intros Hq Hs. unfold setStatus, Eff.bind at 1, Eff.gets. simpl.
  rewrite (Status_eqb_neq _ _ Hq).
  unfold Eff.bind, Eff.modify, Eff.emit, Eff.ret.
  rewrite (Status_eqb_neq _ _ Hs). simpl.
  rewrite setErrorString_eq. simpl.
  reflexivity.
Qed.

Lemma onStateChanged_eq (st : SocketState) :
  onStateChanged st = setStatus (statusFor st).
Proof. now destruct st. Qed.

Lemma statusFor_not_Error (st : SocketState) : statusFor st <> Error.
Proof. destruct st; discriminate. Qed.

Lemma socketSignals_app (a b : list Signal) :
  socketSignals (a ++ b) = socketSignals a ++ socketSignals b.
Proof.
  induction a as [| x a IH]; simpl; [reflexivity |].
  destruct x; simpl; now rewrite ?IH.
Qed.

Lemma statusNotifications_app (a b : list Signal) :
  statusNotifications (a ++ b) = statusNotifications a ++ statusNotifications b.
Proof.
  induction a as [| x a IH]; simpl; [reflexivity |].
  destruct x; simpl; now rewrite ?IH.
Qed.

Lemma refuse_eq (q : t) :
  (setErrorString (tr "Messages can only be sent when the socket is open.") ;;
   setStatus Error ;; Eff.ret 0%Z) q
  = Eff.Done 0%Z (refused tr q) (refusal tr q).
Proof.
  unfold Eff.bind. rewrite setErrorString_eq, setStatus_Error. simpl.
  unfold refused, refusal. now rewrite app_nil_r.
Qed.

Lemma refusal_no_socket_signal (q : t) : socketSignals (refusal tr q) = [].
Proof.
  unfold refusal.
  destruct (String.eqb _ _), (Status_eqb _ _); reflexivity.
Qed.

(** C1. Sending while the status is not [Open] (that is [Connecting],
    [Closing], [Closed] or [Error]) fails at once in the caller's thread:
    [sendTextMessage] and [sendBinaryMessage] return 0, record the
    description "Messages can only be sent when the socket is open.", leave
    the status at [Error], never touch the facade, and none of the signals
    they emit is a facade signal: no send command is forwarded to the
    worker thread. *)
Theorem send_refused_unless_open (q : t) (message : QString) (data : QByteArray) :
  m_status q <> Open ->
  exists q' out,
    sendTextMessage tr message q = Eff.Done 0%Z q' out /\
    sendBinaryMessage tr data q = Eff.Done 0%Z q' out /\
    m_status q' = Error /\
    m_errorString q' = tr "Messages can only be sent when the socket is open." /\
    m_webSocket q' = m_webSocket q /\
    socketSignals out = [] /\
    (m_status q <> Error -> statusNotifications out = [Error]).
Proof.
  intros Hq. exists (refused tr q), (refusal tr q).
  assert (Hs : forall (f : QWebSocketThreaded.M Z),
             (st <- Eff.gets m_status ;;
              if negb (Status_eqb st Open) then
                setErrorString (tr "Messages can only be sent when the socket is open.") ;;
                setStatus Error ;; Eff.ret 0%Z
              else viaSocket f) q = Eff.Done 0%Z (refused tr q) (refusal tr q)).
  { intros f. unfold Eff.bind at 1, Eff.gets at 1.
    rewrite (Status_eqb_neq _ _ Hq). simpl negb. cbv iota.
    rewrite refuse_eq. reflexivity. }
  repeat split.
  - apply Hs.
  - apply Hs.
  - apply refusal_no_socket_signal.
  - intros HE. unfold refusal. rewrite (Status_eqb_neq _ _ HE).
    destruct (String.eqb _ _); reflexivity.
Qed.

(** C5. A transition into a status [s] other than [Error] ([setStatus s]
    when the current status differs from [s]) leaves [errorString()]
    empty, whatever the description was before. *)
Theorem setStatus_clears_errorString (q : t) (s : Status) :
  s <> Error ->
  m_status q <> s ->
  exists q' out,
    setStatus s q = Eff.Done tt q' out /\
    m_status q' = s /\
    errorString q' = Eff.Done "" q' [] /\
    statusNotifications out = [s].
Proof.
  intros Hs Hq. eexists _, _. split; [apply setStatus_change; assumption |].
  repeat split.
  rewrite statusNotifications_app.
  destruct (String.eqb _ _); reflexivity.
Qed.

End Adapter.

(** ** Engine events seen through the adapter *)

Section Relay.
Import QQmlWebSocketThreaded Properties.
Variable tr : string -> QString.
Variable isValid : QUrl -> bool.

Lemma bind_Done {S E A B} (m : Eff.M S E A) (k : A -> Eff.M S E B)
      (s s1 s2 : S) (a : A) (b : B) (o1 o2 : list E) :
  m s = Eff.Done a s1 o1 ->
  k a s1 = Eff.Done b s2 o2 ->
  Eff.bind m k s = Eff.Done b s2 (o1 ++ o2).
Proof. intros H1 H2. unfold Eff.bind. now rewrite H1, H2. Qed.

(** No call on the facade ever writes its [m_errorString]. *)
Lemma facade_errorString_never_written (cs : list QWebSocketThreaded.Call)
      (w : QWebSocketThreaded.t) :
  exists w' out,
    Eff.forEach QWebSocketThreaded.step cs w = Eff.Done tt w' out /\
    QWebSocketThreaded.m_errorString w' = QWebSocketThreaded.m_errorString w.
Proof.
  revert w. induction cs as [| c cs IH]; intros w.
  - now exists w, [].
  - assert (Hc : exists w1 o1, QWebSocketThreaded.step c w = Eff.Done tt w1 o1 /\
                 QWebSocketThreaded.m_errorString w1 = QWebSocketThreaded.m_errorString w).
    { destruct c as [code reason | u | m | d | e]; try destruct e;
        eexists _, _; split; reflexivity. }
    destruct Hc as (w1 & o1 & Hstep & He1).
    destruct (IH w1) as (w' & o' & Hrun & He').
    exists w', (o1 ++ o'). split.
    + simpl. now apply bind_Done with (a := tt) (s1 := w1).
    + congruence.
Qed.

Lemma with_webSocket_same (q : t) (w : QWebSocketThreaded.t) :
  m_webSocket q = Some w -> with_webSocket (Some w) q = q.
Proof. destruct q; unfold with_webSocket; simpl; now intros ->. Qed.

(** The slot run for an engine error: the description is copied from the
    facade, the status becomes [Error]. *)
Lemma onError_eq (q : t) (w : QWebSocketThreaded.t) (e : SocketError) :
  m_webSocket q = Some w ->
  onError e q =
  Eff.Done tt
    (with_status Error (with_errorString (QWebSocketThreaded.m_errorString w) q))
    ((if String.eqb (m_errorString q) (QWebSocketThreaded.m_errorString w)
      then [] else [errorStringChanged (QWebSocketThreaded.m_errorString w)])
       ++ (if Status_eqb (m_status q) Error then [] else [statusChanged Error])).
Proof.
  intros Hw. unfold onError, Eff.bind, viaSocket. rewrite Hw. simpl.
  rewrite (with_webSocket_same q w Hw), setErrorString_eq, setStatus_Error. simpl.
  reflexivity.
Qed.

Lemma fromEngine_error_eq (q : t) (w : QWebSocketThreaded.t) (e : SocketError) :
  m_webSocket q = Some w ->
  fromEngine (QWebSocketThreaded.EvError e) q =
  Eff.Done tt
    (with_status Error (with_errorString (QWebSocketThreaded.m_errorString w) q))
    (socket (QWebSocketThreaded.error e)
       :: (if String.eqb (m_errorString q) (QWebSocketThreaded.m_errorString w)
           then [] else [errorStringChanged (QWebSocketThreaded.m_errorString w)])
       ++ (if Status_eqb (m_status q) Error then [] else [statusChanged Error])).
Proof.
  intros Hw. unfold fromEngine, Eff.bind at 1, Eff.get. rewrite Hw. simpl.
  unfold Eff.bind at 1, Eff.modify.
  rewrite (with_webSocket_same q w Hw).
  unfold Eff.bind, Eff.emit, Eff.ret.
  rewrite (onError_eq q w e Hw). simpl.
  now rewrite app_nil_r.
Qed.

(** The slot run for an engine state change. *)
Lemma fromEngine_stateChanged_eq (q : t) (w : QWebSocketThreaded.t) (st : SocketState) :
  m_webSocket q = Some w ->
  exists q' out,
    fromEngine (QWebSocketThreaded.EvStateChanged st) q = Eff.Done tt q' out /\
    m_webSocket q' =
      Some (QWebSocketThreaded.mk (QWebSocketThreaded.m_errorString w)
                                  (QWebSocketThreaded.m_url w) st) /\
    m_status q' = statusFor st /\
    socketSignals out = [QWebSocketThreaded.stateChanged st] /\
    statusNotifications out =
      (if Status_eqb (m_status q) (statusFor st) then [] else [statusFor st]).
Proof.
  intros Hw.
  set (q1 := with_webSocket
               (Some (QWebSocketThreaded.mk (QWebSocketThreaded.m_errorString w)
                                            (QWebSocketThreaded.m_url w) st)) q).
  assert (Hrun : fromEngine (QWebSocketThreaded.EvStateChanged st) q =
                 match setStatus (statusFor st) q1 with
                 | Eff.Done _ q2 o =>
                     Eff.Done tt q2 (socket (QWebSocketThreaded.stateChanged st) :: o)
                 | Eff.NullDeref o =>
                     Eff.NullDeref (socket (QWebSocketThreaded.stateChanged st) :: o)
                 end).
  { unfold fromEngine, Eff.bind at 1, Eff.get. rewrite Hw. simpl.
    unfold Eff.bind at 1, Eff.modify. fold q1.
    unfold Eff.bind, Eff.emit, Eff.ret. rewrite onStateChanged_eq.
    destruct (setStatus (statusFor st) q1); simpl; now rewrite ?app_nil_r. }
  rewrite Hrun.
  destruct (Status_eqb_spec (m_status q) (statusFor st)) as [E | N].
  - rewrite (setStatus_same (statusFor st) q1) by exact E.
    exists q1, [socket (QWebSocketThreaded.stateChanged st)]. now repeat split.
  - rewrite (setStatus_change (statusFor st) q1) by
        (first [exact N | apply statusFor_not_Error]).
    eexists _, _. split; [reflexivity |]. repeat split; simpl.
    + rewrite socketSignals_app. now destruct (String.eqb _ _).
    + rewrite statusNotifications_app. now destruct (String.eqb _ _).
Qed.

Lemma socketSignals_cons_socket (s : QWebSocketThreaded.Signal) (out : list Signal) :
  socketSignals (socket s :: out) = s :: socketSignals out.
Proof. reflexivity. Qed.

(** C6, as the code has it. Every engine state change is relayed by the
    facade verbatim, one [stateChanged] each and in order; the adapter
    shows each as the status of [statusFor] and notifies [statusChanged]
    only when that status differs from the current one, so the
    notifications are the shown statuses, in order, without those that
    repeat the status before them. *)
Theorem state_changes_relayed (states : list SocketState)
        (q : t) (w : QWebSocketThreaded.t) :
  m_webSocket q = Some w ->
  exists q' out,
    run tr isValid (stateChanges states) q = Eff.Done tt q' out /\
    socketSignals out = map QWebSocketThreaded.stateChanged states /\
    statusNotifications out = changes (m_status q) (map statusFor states) /\
    m_status q' = last (map statusFor states) (m_status q).
Proof.
  revert q w. induction states as [| st states IH]; intros q w Hw.
  - exists q, []. now repeat split.
  - destruct (fromEngine_stateChanged_eq q w st Hw)
      as (q1 & o1 & Hstep & Hw1 & Hs1 & Hsock & Hnot).
    destruct (IH q1 _ Hw1) as (q' & o' & Hrun & Hsock' & Hnot' & Hlast).
    exists q', (o1 ++ o'). split; [| split; [| split]].
    + simpl. apply bind_Done with (a := tt) (s1 := q1); assumption.
    + rewrite socketSignals_app, Hsock, Hsock'. reflexivity.
    + rewrite statusNotifications_app, Hnot, Hnot', Hs1. simpl.
      destruct (Status_eqb_spec (m_status q) (statusFor st)) as [E | N].
      * now rewrite E.
      * reflexivity.
    + rewrite Hlast, Hs1. simpl.
      destruct (map statusFor states) as [| x l]; [reflexivity |].
      clear. revert x. induction l as [| y l IHl]; intros x; simpl;
        [reflexivity |]. apply IHl.
Qed.

End Relay.

(** ** The facade's description stays empty in every reachable adapter *)

Section Clean.
Import QQmlWebSocketThreaded Properties.
Variable tr : string -> QString.
Variable isValid : QUrl -> bool.

Lemma keepsClean_ret {A} (a : A) (q : t) : keepsClean (Eff.ret a) q.
Proof. intros Hq a' q' out H. now inversion H; subst. Qed.

Lemma keepsClean_emit (e : Signal) (q : t) : keepsClean (Eff.emit e) q.
Proof. intros Hq a' q' out H. now inversion H; subst. Qed.

Lemma keepsClean_gets {A} (f : t -> A) (q : t) : keepsClean (Eff.gets f) q.
Proof. intros Hq a' q' out H. now inversion H; subst. Qed.

Lemma keepsClean_modify (f : t -> t) (q : t) :
  m_webSocket (f q) = m_webSocket q -> keepsClean (Eff.modify f) q.
Proof.
  intros Hf Hq a' q' out H. inversion H; subst.
  intros w Hw. apply Hq. congruence.
Qed.

Lemma keepsClean_bind {A B} (m : M A) (k : A -> M B) (q : t) :
  keepsClean m q ->
  (forall a q1 o1, m q = Eff.Done a q1 o1 -> keepsClean (k a) q1) ->
  keepsClean (Eff.bind m k) q.
Proof.
  intros Hm Hk Hq b q' out H. unfold Eff.bind in H.
  destruct (m q) as [a q1 o1 |] eqn:E; [| discriminate].
  destruct (k a q1) as [b' q2 o2 |] eqn:E2; [| discriminate].
  inversion H; subst.
  exact (Hk a q1 o1 eq_refl (Hm Hq a q1 o1 E) b q' o2 E2).
Qed.

Lemma keepsClean_viaSocket {A} (f : QWebSocketThreaded.M A) (q : t) :
  (forall w a w' o, f w = Eff.Done a w' o ->
                    QWebSocketThreaded.m_errorString w'
                    = QWebSocketThreaded.m_errorString w) ->
  keepsClean (viaSocket f) q.
Proof.
  intros Hf Hq a q' out H. unfold viaSocket in H.
  destruct (m_webSocket q) as [w |] eqn:Ew; [| discriminate].
  destruct (f w) as [a' w' o |] eqn:Ef; [| discriminate].
  inversion H; subst. intros w0 Hw0. simpl in Hw0. inversion Hw0; subst.
  rewrite (Hf _ _ _ _ Ef). now apply Hq.
Qed.

Ltac clean :=
  repeat first
    [ apply keepsClean_ret
    | apply keepsClean_emit
    | apply keepsClean_gets
    | apply keepsClean_modify; reflexivity
    | apply keepsClean_viaSocket;
      let H := fresh in intros ? ? ? ? H; now inversion H
    | apply keepsClean_bind; [| intros ? ? ? _]
    | match goal with
      | |- keepsClean (if ?b then _ else _) _ => destruct b
      end ].

Lemma keepsClean_setErrorString (e : QString) (q : t) :
  keepsClean (setErrorString e) q.
Proof. unfold setErrorString. clean. Qed.

Lemma keepsClean_setStatus (s : Status) (q : t) : keepsClean (setStatus s) q.
Proof. unfold setStatus. clean; apply keepsClean_setErrorString. Qed.

Lemma keepsClean_open (q : t) : keepsClean (open isValid) q.
Proof. unfold open. clean. Qed.

Lemma keepsClean_close (q : t) : keepsClean close q.
Proof. unfold close. clean. Qed.

Lemma keepsClean_fromEngine (e : QWebSocketThreaded.EngineEvent) (q : t) :
  keepsClean (fromEngine e) q.
Proof.
  intros Hq. unfold fromEngine, Eff.bind at 1, Eff.get.
  destruct (m_webSocket q) as [w |] eqn:Ew.
  - assert (Hh : exists w' s, QWebSocketThreaded.handle e w = Eff.Done tt w' [s] /\
                   QWebSocketThreaded.m_errorString w'
                   = QWebSocketThreaded.m_errorString w).
    { destruct e; eexists _, _; split; reflexivity. }
    destruct Hh as (w' & s & -> & He).
    assert (Hq1 : facadeClean (with_webSocket (Some w') q)).
    { intros w0 Hw0. simpl in Hw0. inversion Hw0; subst. rewrite He. now apply Hq. }
    assert (K : keepsClean
                  (Eff.forEach (fun s0 => Eff.emit (socket s0) ;; deliver s0) [s])
                  (with_webSocket (Some w') q)).
    { simpl. clean. destruct s; simpl; clean.
      rewrite onStateChanged_eq. apply keepsClean_setStatus. }
    intros a q' out H. simpl in H.
    unfold Eff.bind at 1, Eff.modify in H.
    destruct (Eff.bind _ _ (with_webSocket (Some w') q)) as [a1 q1 o1 |] eqn:E1;
      [| discriminate].
    inversion H; subst.
    simpl in K. exact (K Hq1 _ _ _ E1).
  - intros a q' out H. simpl in H. inversion H; subst. exact Hq.
Qed.

Lemma keepsClean_step (c : Call) (q : t) : keepsClean (step tr isValid c) q.
Proof.
  destruct c; simpl.
  - unfold sendTextMessage. clean.
  - unfold sendBinaryMessage. clean.
  - unfold setUrl. clean.
  - unfold setActive. clean.
  - unfold classBegin. clean.
  - unfold componentComplete, setSocket.
    apply keepsClean_bind.
    + intros _ a q' out H. inversion H; subst.
      intros w Hw. simpl in Hw. now inversion Hw.
    + intros ? ? ? _. clean.
  - apply keepsClean_fromEngine.
Qed.

(** Whatever the owner and the engine do, in any order, the facade of the
    adapter keeps the empty description it was constructed with. *)
Lemma reachable_facade_clean (cs : list Call) (q q' : t) (out : list Signal) :
  facadeClean q ->
  run tr isValid cs q = Eff.Done tt q' out ->
  facadeClean q'.
Proof.
  unfold run. revert q q' out. induction cs as [| c cs IH]; intros q q' out Hq H.
  - inversion H; subst. exact Hq.
  - simpl in H. unfold Eff.bind in H.
    destruct (step tr isValid c q) as [a q1 o1 |] eqn:E1; [| discriminate].
    destruct (Eff.forEach (step tr isValid) cs q1) as [[] q2 o2 |] eqn:E2;
      [| discriminate].
    inversion H; subst.
    exact (IH q1 q' o2 (keepsClean_step c q Hq a q1 o1 E1) E2).
Qed.

(** An engine error on any adapter reached from a fresh one ends in status
    [Error] with an empty description. *)
Lemma engine_error_description_empty (cs : list Call) (q : t) (out : list Signal)
      (e : SocketError) :
  run tr isValid cs new = Eff.Done tt q out ->
  m_webSocket q <> None ->
  exists q' out',
    fromEngine (QWebSocketThreaded.EvError e) q = Eff.Done tt q' out' /\
    m_status q' = Error /\
    m_errorString q' = "".
Proof.
  intros Hrun Hsock.
  destruct (m_webSocket q) as [w |] eqn:Ew; [| congruence].
  assert (Hw : QWebSocketThreaded.m_errorString w = "").
  { refine (reachable_facade_clean cs new q out _ Hrun w Ew). intros w0 H0. discriminate. }
  rewrite (fromEngine_error_eq q w e Ew).
  eexists _, _. split; [reflexivity |]. split; [reflexivity | exact Hw].
Qed.

End Clean.

(** ** The adapter run on concrete inputs *)

Section AdapterRuns.
Import QQmlWebSocketThreaded Properties.

(** [completedAdapter] is where a fresh adapter stands once it has a url,
    is active and was completed. *)
Example completedAdapter_reached :
  Eff.stateOf (run noTr anyUrlValid
                 [CallSetUrl "ws://host/"; CallSetActive true;
                  CallComponentComplete UnconnectedState] new)
  = Some completedAdapter.
Proof. reflexivity. Qed.

Lemma send_refused_unless_open_witness :
  m_status new <> Open /\
  exists q' out,
    sendTextMessage noTr "ping" new = Eff.Done 0%Z q' out /\
    sendBinaryMessage noTr [Byte.x00] new = Eff.Done 0%Z q' out /\
    m_status q' = Error /\
    m_errorString q' = "Messages can only be sent when the socket is open." /\
    m_webSocket q' = m_webSocket new /\
    socketSignals out = [] /\
    (m_status new <> Error -> statusNotifications out = [Error]).
Proof.
  split; [discriminate |].
  apply (send_refused_unless_open noTr new "ping" [Byte.x00]). discriminate.
Defined.

Lemma setStatus_clears_errorString_witness :
  Connecting <> Error /\
  m_status (refused noTr new) <> Connecting /\
  exists q' out,
    setStatus Connecting (refused noTr new) = Eff.Done tt q' out /\
    m_status q' = Connecting /\
    errorString q' = Eff.Done "" q' [] /\
    statusNotifications out = [Connecting].
Proof.
  split; [discriminate |]. split; [discriminate |].
  apply (setStatus_clears_errorString (refused noTr new) Connecting); discriminate.
Defined.

Lemma state_changes_relayed_witness :
  m_webSocket completedAdapter
  = Some (QWebSocketThreaded.mk "" "ws://host/" UnconnectedState) /\
  exists q' out,
    run noTr anyUrlValid
        (stateChanges [HostLookupState; ConnectingState; ConnectedState;
                       ClosingState; UnconnectedState])
        completedAdapter = Eff.Done tt q' out /\
    socketSignals out =
      map QWebSocketThreaded.stateChanged
          [HostLookupState; ConnectingState; ConnectedState;
           ClosingState; UnconnectedState] /\
    statusNotifications out = [Connecting; Open; Closing; Closed] /\
    m_status q' = Closed.
Proof.
  split; [reflexivity |].
  apply (state_changes_relayed noTr anyUrlValid
           [HostLookupState; ConnectingState; ConnectedState;
            ClosingState; UnconnectedState]
           completedAdapter
           (QWebSocketThreaded.mk "" "ws://host/" UnconnectedState)).
  reflexivity.
Defined.

(** C6 as stated fails: the engine passes through [HostLookupState] and
    then [ConnectingState]; both are shown as [Connecting], and the adapter
    notifies the caller once, not twice. *)
Lemma state_changes_merged :
  ~ relaysEveryStateChange noTr anyUrlValid completedAdapter
      [HostLookupState; ConnectingState].
Proof. unfold relaysEveryStateChange. vm_compute. discriminate. Qed.

(** C4 on a run of the code: an adapter is declared, completed and
    connected; the engine then raises an error (1, the remote host closed
    the connection).  The adapter's status becomes [Error], the caller is
    notified of it, and [errorString()] returns the empty string: the
    description is read from the facade, whose [errorString()] only returns
    a member that nothing ever sets. *)
Theorem engine_error_leaves_description_empty :
  exists q0 out0 q out,
    openAdapter = Eff.Done tt q0 out0 /\
    m_status q0 = Open /\
    fromEngine (QWebSocketThreaded.EvError 1%Z) q0 = Eff.Done tt q out /\
    m_status q = Error /\
    statusNotifications out = [Error] /\
    errorString q = Eff.Done "" q [].
Proof. vm_compute. repeat eexists. Qed.

(** A call of [setStatus] with the status the adapter already has is no
    transition: it returns at once, and a description set before (here by
    [classBegin]) stays. *)
Example setStatus_same_status_keeps_errorString :
  exists q out,
    (classBegin noTr ;; setStatus Closed) new = Eff.Done tt q out /\
    m_status q = Closed /\
    m_errorString q = "QQmlWebSocketThreaded is not ready." /\
    statusNotifications out = [].
Proof. vm_compute. repeat eexists. Qed.

End AdapterRuns.

(** ** The server: queue operations and the handshake *)

Section Server.
Import Handshake QWebSocketServer.
Variable QWebSocket : Type.
Variable upgradeFrom :
  TcpSocket -> HandshakeRequest -> HandshakeResponse -> option QWebSocket.
Variable respond :
  HandshakeRequest -> QString -> bool -> list Version -> list QString ->
  list QString -> HandshakeResponse.

Local Abbreviation server := (QWebSocketServer.t QWebSocket).
Local Abbreviation run := (QWebSocketServer.run QWebSocket upgradeFrom respond).
Local Abbreviation step := (QWebSocketServer.step QWebSocket upgradeFrom respond).
Local Abbreviation handshakeReceived :=
  (QWebSocketServer.handshakeReceived QWebSocket upgradeFrom respond).
Local Abbreviation addPendingConnection := (QWebSocketServer.addPendingConnection QWebSocket).
Local Abbreviation nextPendingConnection := (QWebSocketServer.nextPendingConnection QWebSocket).
Local Abbreviation hasPendingConnections := (QWebSocketServer.hasPendingConnections QWebSocket).
Local Abbreviation with_pendingConnections := (QWebSocketServer.with_pendingConnections QWebSocket).
Local Abbreviation acceptN := (QWebSocketServer.acceptN QWebSocket).

Lemma with_pendingConnections_same (s : server) :
  with_pendingConnections (m_pendingConnections s) s = s.
Proof. now destruct s. Qed.

Lemma addPendingConnection_eq (pWebSocket : QWebSocket) (s : server) :
  addPendingConnection pWebSocket s =
  Eff.Done tt
    (if (queueLength s <? maxPending s)%Z
     then with_pendingConnections (m_pendingConnections s ++ [pWebSocket]) s
     else s) [].
Proof.
  unfold QWebSocketServer.addPendingConnection, QWebSocketServer.maxPendingConnections,
    QWebSocketServer.enqueue, Eff.bind, Eff.gets, Eff.modify, Eff.ret,
    queueLength, maxPending.
  simpl. now destruct (Z.ltb _ _).
Qed.

Lemma addPendingConnection_room (pWebSocket : QWebSocket) (s : server) :
  (queueLength s < maxPending s)%Z ->
  addPendingConnection pWebSocket s =
  Eff.Done tt (with_pendingConnections (m_pendingConnections s ++ [pWebSocket]) s) [].
Proof.
  intros H. rewrite addPendingConnection_eq.
  now rewrite (proj2 (Z.ltb_lt _ _) H).
Qed.

Lemma addPendingConnection_full (pWebSocket : QWebSocket) (s : server) :
  (maxPending s <= queueLength s)%Z ->
  addPendingConnection pWebSocket s = Eff.Done tt s [].
Proof.
  intros H. rewrite addPendingConnection_eq.
  now rewrite (proj2 (Z.ltb_ge _ _) H).
Qed.

Lemma queueLength_enqueue (pWebSocket : QWebSocket) (s : server) :
  queueLength (with_pendingConnections (m_pendingConnections s ++ [pWebSocket]) s)
  = (queueLength s + 1)%Z.
Proof. unfold queueLength. simpl. rewrite length_app. simpl. lia. Qed.

(** The queue after [addPendingConnection]: within the bound whenever it
    was, and the bound itself is not touched. *)
Lemma addPendingConnection_bounded (pWebSocket : QWebSocket) (s : server) :
  exists s',
    addPendingConnection pWebSocket s = Eff.Done tt s' [] /\
    maxPending s' = maxPending s /\
    ((queueLength s <= maxPending s)%Z -> (queueLength s' <= maxPending s)%Z).
Proof.
  rewrite addPendingConnection_eq.
  destruct (Z.ltb_spec (queueLength s) (maxPending s)) as [Hlt | Hge].
  - eexists. split; [reflexivity |]. split; [reflexivity |].
    intros _. rewrite queueLength_enqueue. lia.
  - exists s. now repeat split.
Qed.

Lemma nextPendingConnection_eq (s : server) :
  nextPendingConnection s =
  match m_pendingConnections s with
  | pWebSocket :: q' => Eff.Done (Some pWebSocket) (with_pendingConnections q' s) []
  | [] => Eff.Done None s []
  end.
Proof.
  unfold QWebSocketServer.nextPendingConnection, Eff.bind, Eff.gets. simpl.
  now destruct (m_pendingConnections s).
Qed.

(** The destructor closes every queued connection with the "going away"
    code, schedules its deletion, and leaves the queue empty. *)
Lemma closeAll_eq (q : list QWebSocket) (s : server) :
  QWebSocketServer.closeAll QWebSocket q s =
  Eff.Done tt (match q with [] => s | _ => with_pendingConnections [] s end)
    (flat_map (fun ws => [wsClose ws CC_GOING_AWAY "Server closed.";
                          wsDeleteLater ws]) q).
Proof.
  revert s. induction q as [| ws q' IH]; intros s; [reflexivity |].
  simpl. unfold Eff.bind, Eff.modify, Eff.emit. rewrite IH.
  now destruct q'.
Qed.

(** The four ways [handshakeReceived] ends for a stream that is there. *)
Lemma handshakeReceived_eq (sock : TcpSocket) (s : server) :
  let fd := socketDescriptor sock in
  let request := readFrom (peerPort sock) false sock in
  let response := respond request (m_serverName s)
                          (isOriginAllowed (getOrigin request))
                          supportedVersions supportedProtocols supportedExtensions in
  handshakeReceived (Some sock) s =
  if isValid response then
    if canUpgrade response then
      match upgradeFrom sock request response with
      | Some pWebSocket =>
          Eff.Done tt
            (if (queueLength s <? maxPending s)%Z
             then with_pendingConnections (m_pendingConnections s ++ [pWebSocket]) s
             else s)
            [tcpDisconnectReadyRead fd; tcpWrite fd response; tcpFlush fd;
             wsUpgradeFrom fd; wsSetParent pWebSocket; newConnection]
      | None =>
          Eff.Done tt s
            [tcpDisconnectReadyRead fd; tcpWrite fd response; tcpFlush fd;
             wsUpgradeFrom fd;
             qDebug "WebSocketServer::handshakeReceived: Upgrading to WebSocket failed.";
             qDebug "WebSocketServer::handshakeReceived: Closing socket because of invalid or unsupported request";
             tcpClose fd]
      end
    else
      Eff.Done tt s
        [tcpDisconnectReadyRead fd; tcpWrite fd response; tcpFlush fd;
         qDebug "WebSocketServer::handshakeReceived: Cannot upgrade to websocket.";
         qDebug "WebSocketServer::handshakeReceived: Closing socket because of invalid or unsupported request";
         tcpClose fd]
  else
    Eff.Done tt s
      [tcpDisconnectReadyRead fd;
       qDebug "WebSocketServer::handshakeReceived: Invalid response. This should not happen!!!";
       qDebug "WebSocketServer::handshakeReceived: Closing socket because of invalid or unsupported request";
       tcpClose fd].
Proof.
  intros fd request response.
  unfold QWebSocketServer.handshakeReceived.
  fold fd. fold request.
  unfold Eff.bind at 1, Eff.gets at 1.
  change (respond request (m_serverName s)
            (isOriginAllowed (getOrigin request))
            supportedVersions supportedProtocols supportedExtensions) with response.
  destruct (isValid response); [destruct (canUpgrade response);
    [destruct (upgradeFrom sock request response) as [ws |] |] |];
    try reflexivity.
  unfold Eff.bind, Eff.emit, Eff.ret.
  rewrite addPendingConnection_eq. reflexivity.
Qed.

Lemma queueLength_nonneg (s : server) : (0 <= queueLength s)%Z.
Proof. unfold queueLength. lia. Qed.

(** One call of the server leaves the bound alone and the queue within it. *)
Lemma step_bounded (c : QWebSocketServer.Call QWebSocket) (s : server) :
  exists s' out,
    step c s = Eff.Done tt s' out /\
    maxPending s' = maxPending s /\
    ((queueLength s <= maxPending s)%Z -> (queueLength s' <= maxPending s)%Z).
Proof.
  destruct c as [sock | [sock |] | ws | | sender]; cbn [QWebSocketServer.step].
  - eexists _, _. now repeat split.
  - rewrite handshakeReceived_eq.
    destruct (isValid _); [destruct (canUpgrade _);
      [destruct (upgradeFrom _ _ _) as [ws |] |] |];
      try (eexists _, _; now repeat split).
    destruct (Z.ltb_spec (queueLength s) (maxPending s)) as [Hlt | Hge].
    + eexists _, _. split; [reflexivity |]. split; [reflexivity |].
      intros _. rewrite queueLength_enqueue. lia.
    + eexists _, _. now repeat split.
  - eexists _, _. now repeat split.
  - destruct (addPendingConnection_bounded ws s) as (s' & H & Hm & Hb).
    exists s', []. now repeat split.
  - unfold Eff.bind. rewrite nextPendingConnection_eq.
    destruct (m_pendingConnections s) as [| x q'] eqn:Eq.
    + eexists _, _. now repeat split.
    + eexists _, _. split; [reflexivity |]. split; [reflexivity |].
      unfold queueLength. rewrite Eq. simpl. lia.
  - destruct sender; eexists _, _; now repeat split.
Qed.

(** C2. However upgrade completions ([handshakeReceived],
    [addPendingConnection]) and accept calls ([nextPendingConnection])
    follow one another, the queue of pending connections stays within
    [maxPendingConnections()], which none of them changes; and once the
    queue has reached that maximum, [addPendingConnection] does not enqueue:
    the server, its queue included, is left as it was. *)
Theorem pending_queue_never_exceeds_max
    (s : server) (cs : list (QWebSocketServer.Call QWebSocket))
    (pWebSocket : QWebSocket) :
  (queueLength s <= maxPending s)%Z ->
  exists s' out,
    run cs s = Eff.Done tt s' out /\
    maxPending s' = maxPending s /\
    (queueLength s' <= maxPending s')%Z /\
    ((maxPending s' <= queueLength s')%Z ->
     addPendingConnection pWebSocket s' = Eff.Done tt s' []).
Proof.
  unfold QWebSocketServer.run. revert s.
  induction cs as [| c cs IH]; intros s Hs.
  - exists s, []. repeat split; [assumption |].
    apply addPendingConnection_full.
  - destruct (step_bounded c s) as (s1 & o1 & Hstep & Hm1 & Hb1).
    destruct (IH s1) as (s' & o' & Hrun & Hm' & Hb' & Hfull).
    { rewrite Hm1. now apply Hb1. }
    exists s', (o1 ++ o'). split; [| split; [congruence | split; assumption]].
    simpl. now apply bind_Done with (a := tt) (s1 := s1).
Qed.

(** Accepting as many times as there are queued connections hands them
    out front to back and empties the queue. *)
Lemma acceptN_all (q : list QWebSocket) (s : server) :
  m_pendingConnections s = q ->
  acceptN (length q) s = Eff.Done (map Some q) (with_pendingConnections [] s) [].
Proof.
  revert s. induction q as [| x q' IH]; intros s Hq.
  - simpl. unfold Eff.ret. now rewrite <- Hq, with_pendingConnections_same.
  - simpl. unfold Eff.bind at 1. rewrite nextPendingConnection_eq, Hq.
    unfold Eff.bind. rewrite (IH (with_pendingConnections q' s) eq_refl).
    reflexivity.
Qed.

(** Connections added while there is room line up behind the queue. *)
Lemma addPendingConnection_all (pWebSockets : list QWebSocket) (s : server) :
  (queueLength s + Z.of_nat (length pWebSockets) <= maxPending s)%Z ->
  exists s1,
    run (map CallAddPendingConnection pWebSockets) s = Eff.Done tt s1 [] /\
    m_pendingConnections s1 = m_pendingConnections s ++ pWebSockets /\
    maxPending s1 = maxPending s.
Proof.
  unfold QWebSocketServer.run. revert s.
  induction pWebSockets as [| ws wss IH]; intros s Hroom.
  - exists s. rewrite app_nil_r. now repeat split.
  - simpl length in Hroom.
    assert (Hlt : (queueLength s < maxPending s)%Z) by lia.
    destruct (IH (with_pendingConnections (m_pendingConnections s ++ [ws]) s))
      as (s1 & Hrun & Hq & Hm).
    { rewrite queueLength_enqueue. unfold maxPending in *. simpl. lia. }
    exists s1. split; [| split].
    + simpl. unfold Eff.bind.
      rewrite (addPendingConnection_room ws s Hlt), Hrun. reflexivity.
    + rewrite Hq. simpl. now rewrite <- app_assoc.
    + exact Hm.
Qed.

(** C10. With an empty queue [nextPendingConnection] returns the null
    pointer and changes nothing, and [hasPendingConnections] is false; with
    a non-empty queue it removes and returns the front element; and
    connections enqueued while there is room are handed out, one accept
    after the other, in the order in which they were enqueued, behind those
    already waiting. *)
Theorem pending_connections_first_in_first_out (s : server) :
  (m_pendingConnections s = [] ->
   nextPendingConnection s = Eff.Done None s [] /\
   hasPendingConnections s = Eff.Done false s []) /\
  (forall pWebSocket rest,
      m_pendingConnections s = pWebSocket :: rest ->
      nextPendingConnection s
      = Eff.Done (Some pWebSocket) (with_pendingConnections rest s) [] /\
      hasPendingConnections s = Eff.Done true s []) /\
  (forall pWebSockets,
      (queueLength s + Z.of_nat (length pWebSockets) <= maxPending s)%Z ->
      exists s1,
        run (map CallAddPendingConnection pWebSockets) s = Eff.Done tt s1 [] /\
        acceptN (length (m_pendingConnections s ++ pWebSockets)) s1
        = Eff.Done (map Some (m_pendingConnections s ++ pWebSockets))
                   (with_pendingConnections [] s1) []).
Proof.
  split; [| split].
  - intros Hq. rewrite nextPendingConnection_eq.
    unfold QWebSocketServer.hasPendingConnections, Eff.bind, Eff.gets, Eff.ret.
    now rewrite Hq.
  - intros ws rest Hq. rewrite nextPendingConnection_eq.
    unfold QWebSocketServer.hasPendingConnections, Eff.bind, Eff.gets, Eff.ret.
    now rewrite Hq.
  - intros wss Hroom.
    destruct (addPendingConnection_all wss s Hroom) as (s1 & Hrun & Hq & _).
    exists s1. split; [exact Hrun |].
    now apply acceptN_all.
Qed.

(** C3, as the code has it. When the upgrade succeeds and the queue is
    full, the new connection is not queued and nothing closes it: the server
    is left as it was, no close of any web socket and no close of the raw
    stream is issued, and the connection has only been made a child of the
    server. *)
Theorem full_queue_leaves_upgraded_connection_open
    (s : server) (sock : TcpSocket) (pWebSocket : QWebSocket) :
  let request := readFrom (peerPort sock) false sock in
  let response := respond request (m_serverName s)
                          (isOriginAllowed (getOrigin request))
                          supportedVersions supportedProtocols supportedExtensions in
  isValid response = true ->
  canUpgrade response = true ->
  upgradeFrom sock request response = Some pWebSocket ->
  (maxPending s <= queueLength s)%Z ->
  exists out,
    handshakeReceived (Some sock) s = Eff.Done tt s out /\
    (forall w closeCode reason, ~ In (wsClose w closeCode reason) out) /\
    ~ In (tcpClose (socketDescriptor sock)) out /\
    In (wsSetParent pWebSocket) out.
Proof.
  intros request response Hv Hc Hu Hfull.
  rewrite handshakeReceived_eq.
  fold request. fold response. rewrite Hv, Hc, Hu.
  rewrite (proj2 (Z.ltb_ge _ _) Hfull).
  eexists. split; [reflexivity |]. split; [| split].
  - intros w code reason Hin. simpl in Hin.
    repeat (destruct Hin as [Hin | Hin]; [discriminate |]). exact Hin.
  - intros Hin. simpl in Hin.
    repeat (destruct Hin as [Hin | Hin]; [discriminate |]). exact Hin.
  - simpl. tauto.
Qed.

(** A response that does not allow the upgrade: the stream is never turned
    into a web socket, the response is written and flushed if it is valid,
    and the stream is closed last. *)
Lemma handshakeReceived_rejects (s : server) (sock : TcpSocket) :
  let fd := socketDescriptor sock in
  let request := readFrom (peerPort sock) false sock in
  let response := respond request (m_serverName s)
                          (isOriginAllowed (getOrigin request))
                          supportedVersions supportedProtocols supportedExtensions in
  isValid response && canUpgrade response = false ->
  handshakeReceived (Some sock) s =
  Eff.Done tt s
    (tcpDisconnectReadyRead fd
       :: (if isValid response
           then [tcpWrite fd response; tcpFlush fd;
                 qDebug "WebSocketServer::handshakeReceived: Cannot upgrade to websocket."]
           else [qDebug "WebSocketServer::handshakeReceived: Invalid response. This should not happen!!!"])
       ++ [qDebug "WebSocketServer::handshakeReceived: Closing socket because of invalid or unsupported request";
           tcpClose fd]).
Proof.
  intros fd request response H.
  rewrite handshakeReceived_eq. fold fd. fold request. fold response.
  destruct (isValid response); [| reflexivity].
  simpl in H. now rewrite H.
Qed.

End Server.

(** ** Requests that cannot be upgraded *)

Section Rejection.
Import Handshake QWebSocketServer.
Variable QWebSocket : Type.
Variable upgradeFrom :
  TcpSocket -> HandshakeRequest -> HandshakeResponse -> option QWebSocket.
Variable calculateAcceptKey : string -> string.

Local Abbreviation respond := (HandshakeResponse_new calculateAcceptKey).

(** The response the handshake builds is always there to be written, and
    its status is 101 exactly when the upgrade is allowed. *)
Lemma response_status (request : HandshakeRequest) (serverName : QString)
      (versions : list Version) (ps es : list QString) :
  let response := respond request serverName true versions ps es in
  isValid response = true /\
  (if canUpgrade response then statusCode response = 101%Z
   else statusCode response = 400%Z).
Proof.
  unfold HandshakeResponse_new. simpl.
  destruct (requiredHeadersPresent request), (getKey request),
    (matchingVersions request versions); simpl; auto.
Qed.

Lemma missing_key_cannot_upgrade (request : HandshakeRequest) (serverName : QString)
      (versions : list Version) (ps es : list QString) :
  getKey request = None ->
  canUpgrade (respond request serverName true versions ps es) = false.
Proof.
  intros Hk. unfold HandshakeResponse_new. simpl. rewrite Hk.
  now destruct (requiredHeadersPresent request).
Qed.

(** C7. A request that cannot be upgraded, one without [Sec-WebSocket-Key]
    for instance, is answered with a response whose status is not 101 (it is
    400); [handshakeReceived] writes and flushes that response, calls neither
    [upgradeFrom] nor [addPendingConnection], emits no [newConnection],
    leaves the server as it was, and closes the raw stream last; it runs to
    its end. *)
Theorem request_without_upgrade_is_rejected_and_closed
    (s : QWebSocketServer.t QWebSocket) (sock : TcpSocket) :
  let fd := socketDescriptor sock in
  let request := readFrom (peerPort sock) false sock in
  let response := respond request (m_serverName s)
                          (isOriginAllowed (getOrigin request))
                          supportedVersions supportedProtocols supportedExtensions in
  getKey request = None \/ canUpgrade response = false ->
  statusCode response <> 101%Z /\
  statusCode response = 400%Z /\
  QWebSocketServer.handshakeReceived QWebSocket upgradeFrom respond (Some sock) s =
  Eff.Done tt s
    [tcpDisconnectReadyRead fd; tcpWrite fd response; tcpFlush fd;
     qDebug "WebSocketServer::handshakeReceived: Cannot upgrade to websocket.";
     qDebug "WebSocketServer::handshakeReceived: Closing socket because of invalid or unsupported request";
     tcpClose fd].
Proof.
  intros fd request response H.
  assert (Hc : canUpgrade response = false).
  { destruct H as [Hk | Hc]; [| exact Hc].
    now apply missing_key_cannot_upgrade. }
  destruct (response_status request (m_serverName s) supportedVersions
                            supportedProtocols supportedExtensions)
    as [Hv Hst].
  change (isValid response = true) in Hv.
  change (if canUpgrade response
          then statusCode response = 101%Z else statusCode response = 400%Z) in Hst.
  rewrite Hc in Hst.
  split; [rewrite Hst; discriminate |]. split; [exact Hst |].
  rewrite (handshakeReceived_rejects QWebSocket upgradeFrom respond s sock).
  - fold fd. fold request. fold response. now rewrite Hv.
  - fold request. fold response. now rewrite Hv, Hc.
Qed.

End Rejection.

(** C9. The server's origin predicate accepts every origin, the empty
    string included. *)
Theorem every_origin_is_allowed (origin : QString) :
  QWebSocketServer.isOriginAllowed origin = true /\
  QWebSocketServer.isOriginAllowed "" = true.
Proof. split; reflexivity. Qed.

(** ** The server run on concrete inputs *)

Section ServerRuns.
Import Handshake QWebSocketServer Properties.

Local Abbreviation respond := (HandshakeResponse_new echoKey).

(** Thirty-one upgrades against the default limit: descriptors 1 to 30 are
    queued in order, the thirty-first is not. *)
Example thirty_one_upgrades_queue_thirty :
  Eff.stateOf (QWebSocketServer.run Z upgradeByDescriptor respond
                 thirtyOneUpgrades (QWebSocketServer.new Z "echo"))
  = Some fullServer.
Proof. vm_compute. reflexivity. Qed.

Lemma pending_queue_never_exceeds_max_witness :
  (queueLength (QWebSocketServer.new Z "echo")
   <= maxPending (QWebSocketServer.new Z "echo"))%Z /\
  exists s' out,
    QWebSocketServer.run Z upgradeByDescriptor respond thirtyOneUpgrades
      (QWebSocketServer.new Z "echo") = Eff.Done tt s' out /\
    maxPending s' = maxPending (QWebSocketServer.new Z "echo") /\
    (queueLength s' <= maxPending s')%Z /\
    ((maxPending s' <= queueLength s')%Z ->
     QWebSocketServer.addPendingConnection Z 32%Z s' = Eff.Done tt s' []).
Proof.
  assert (H : (queueLength (QWebSocketServer.new Z "echo")
               <= maxPending (QWebSocketServer.new Z "echo"))%Z)
    by (vm_compute; discriminate).
  split; [exact H |].
  exact (pending_queue_never_exceeds_max Z upgradeByDescriptor respond
           (QWebSocketServer.new Z "echo") thirtyOneUpgrades 32%Z H).
Defined.

(** C3 as stated fails: the thirty-first stream completes a valid upgrade
    while thirty connections wait; no close with the "going away" code is
    issued on the new connection. *)
Lemma full_queue_does_not_close :
  ~ closesWhenQueueFull Z.eqb upgradeByDescriptor respond fullServer (goodSocket 31).
Proof.
  intros H.
  specialize (H 31%Z eq_refl eq_refl eq_refl).
  assert (Hfull : (maxPending fullServer <= queueLength fullServer)%Z)
    by (vm_compute; discriminate).
  specialize (H Hfull). vm_compute in H. discriminate.
Qed.

Lemma full_queue_leaves_upgraded_connection_open_witness :
  isValid (respond (readFrom 50000 false (goodSocket 31)) "echo"
                   (isOriginAllowed "") supportedVersions supportedProtocols
                   supportedExtensions) = true /\
  (maxPending fullServer <= queueLength fullServer)%Z /\
  exists out,
    QWebSocketServer.handshakeReceived Z upgradeByDescriptor respond
      (Some (goodSocket 31)) fullServer = Eff.Done tt fullServer out /\
    (forall w closeCode reason, ~ In (wsClose w closeCode reason) out) /\
    ~ In (tcpClose 31%Z) out /\
    In (wsSetParent 31%Z) out.
Proof.
  assert (Hfull : (maxPending fullServer <= queueLength fullServer)%Z)
    by (vm_compute; discriminate).
  split; [reflexivity |]. split; [exact Hfull |].
  exact (full_queue_leaves_upgraded_connection_open Z upgradeByDescriptor respond
           fullServer (goodSocket 31) 31%Z eq_refl eq_refl eq_refl Hfull).
Defined.

Lemma request_without_upgrade_is_rejected_and_closed_witness :
  getKey (readFrom 50000 false (keylessSocket 7)) = None /\
  QWebSocketServer.handshakeReceived Z upgradeByDescriptor respond
    (Some (keylessSocket 7)) (QWebSocketServer.new Z "echo") =
  Eff.Done tt (QWebSocketServer.new Z "echo")
    [tcpDisconnectReadyRead 7; tcpWrite 7 (mkResponse true false 400 None [] []);
     tcpFlush 7;
     qDebug "WebSocketServer::handshakeReceived: Cannot upgrade to websocket.";
     qDebug "WebSocketServer::handshakeReceived: Closing socket because of invalid or unsupported request";
     tcpClose 7].
Proof.
  split; [reflexivity |].
  exact (proj2 (proj2 (request_without_upgrade_is_rejected_and_closed
                         Z upgradeByDescriptor echoKey
                         (QWebSocketServer.new Z "echo") (keylessSocket 7)
                         (or_introl eq_refl)))).
Defined.

Lemma pending_connections_first_in_first_out_witness :
  (m_pendingConnections (QWebSocketServer.new Z "echo") = [] /\
   QWebSocketServer.nextPendingConnection Z (QWebSocketServer.new Z "echo")
   = Eff.Done None (QWebSocketServer.new Z "echo") []) /\
  (m_pendingConnections twoWaiting = [1%Z; 2%Z] /\
   QWebSocketServer.nextPendingConnection Z twoWaiting
   = Eff.Done (Some 1%Z) (QWebSocketServer.with_pendingConnections Z [2%Z] twoWaiting) []) /\
  ((queueLength twoWaiting + 2 <= maxPending twoWaiting)%Z /\
   exists s1,
     QWebSocketServer.run Z upgradeByDescriptor respond
       (map CallAddPendingConnection [3%Z; 4%Z]) twoWaiting = Eff.Done tt s1 [] /\
     QWebSocketServer.acceptN Z 4 s1
     = Eff.Done [Some 1%Z; Some 2%Z; Some 3%Z; Some 4%Z]
                (QWebSocketServer.with_pendingConnections Z [] s1) []).
Proof.
  split; [| split].
  - split; [reflexivity |].
    exact (proj1 (proj1 (pending_connections_first_in_first_out
                           Z upgradeByDescriptor respond
                           (QWebSocketServer.new Z "echo")) eq_refl)).
  - split; [reflexivity |].
    exact (proj1 (proj1 (proj2 (pending_connections_first_in_first_out
                                  Z upgradeByDescriptor respond twoWaiting))
                        1%Z [2%Z] eq_refl)).
  - assert (Hroom : (queueLength twoWaiting + Z.of_nat (length [3%Z; 4%Z])
                     <= maxPending twoWaiting)%Z) by (vm_compute; discriminate).
    split; [exact Hroom |].
    exact (proj2 (proj2 (pending_connections_first_in_first_out
                           Z upgradeByDescriptor respond twoWaiting))
                 [3%Z; 4%Z] Hroom).
Defined.

End ServerRuns.

(** * More of the code *)

(** ** The facade under any run of calls *)

Section FacadeRuns.
Import QWebSocketThreaded Behaviour.

Lemma facade_step_eq (c : Call) (w : t) :
  step c w =
  Eff.Done tt
    (match c with
     | CallOpen u => mk (m_errorString w) u (m_state w)
     | CallEngine (EvStateChanged st) => mk (m_errorString w) (m_url w) st
     | _ => w
     end)
    [emitted c].
Proof. destruct c as [code reason | u | m | d | e]; try destruct e; reflexivity. Qed.

(** The facade checks nothing before it forwards: whatever state the engine
    has reported, every [close], [open] and send call emits exactly its
    command and every engine event exactly its signal, with the arguments
    as given, one per call and in call order; a send returns -1 whatever
    happens to the message. *)
Theorem facade_forwards_every_call (cs : list Call) (w : t)
        (message : QString) (data : QByteArray) :
  (exists w', Eff.forEach step cs w = Eff.Done tt w' (map emitted cs)) /\
  sendTextMessage message w
  = Eff.Done (-1)%Z w [sendTextMessageCommand message] /\
  sendBinaryMessage data w
  = Eff.Done (-1)%Z w [sendBinaryMessageCommand data].
Proof.
  split; [| split; reflexivity].
  revert w. induction cs as [| c cs IH]; intros w.
  - now exists w.
  - simpl. unfold Eff.bind. rewrite facade_step_eq.
    destruct (IH (match c with
                  | CallOpen u => mk (m_errorString w) u (m_state w)
                  | CallEngine (EvStateChanged st) => mk (m_errorString w) (m_url w) st
                  | _ => w
                  end)) as (w' & ->).
    now exists w'.
Qed.

(** After any run of calls, [state()] is the state of the last
    [stateChanged] the engine raised, [requestUrl()] the url of the last
    [open], each as it was before the run when there was none, and
    [errorString()] is what it was before the run. *)
Theorem facade_getters_follow_last_call (cs : list Call) (w : t) :
  exists w' out,
    Eff.forEach step cs w = Eff.Done tt w' out /\
    state w' = Eff.Done (lastState cs (m_state w)) w' [] /\
    requestUrl w' = Eff.Done (lastUrl cs (m_url w)) w' [] /\
    errorString w' = Eff.Done (m_errorString w) w' [].
Proof.
  revert w. induction cs as [| c cs IH]; intros w.
  - exists w, []. now repeat split.
  - simpl. unfold Eff.bind. rewrite facade_step_eq.
    match goal with
    | |- context [Eff.forEach step cs ?w1] =>
        destruct (IH w1) as (w' & out & -> & Hs & Hu & He)
    end.
    exists w', ([emitted c] ++ out). split; [reflexivity |].
    unfold state, requestUrl, errorString, Eff.gets in *.
    destruct c as [code reason | u | m | d | e]; try destruct e; simpl in *;
      repeat split; congruence.
Qed.

End FacadeRuns.

(** ** The adapter: sends that go through, runs that never crash *)

Section AdapterSafety.
Import QQmlWebSocketThreaded Behaviour.
Variable tr : string -> QString.
Variable isValid : QUrl -> bool.

(** A send on an adapter whose status is [Open] goes to the facade as one
    command carrying the message as given; the call returns -1 (no byte
    count is available) and neither the status nor the description nor
    anything else of the adapter changes. *)
Theorem send_forwarded_when_open (q : t) (w : QWebSocketThreaded.t)
        (message : QString) (data : QByteArray) :
  m_status q = Open ->
  m_webSocket q = Some w ->
  sendTextMessage tr message q
  = Eff.Done (-1)%Z q [socket (QWebSocketThreaded.sendTextMessageCommand message)] /\
  sendBinaryMessage tr data q
  = Eff.Done (-1)%Z q [socket (QWebSocketThreaded.sendBinaryMessageCommand data)].
Proof.
  intros Hs Hw.
  split.
  - unfold sendTextMessage, Eff.bind, Eff.gets. rewrite Hs. simpl.
    unfold viaSocket. rewrite Hw. simpl.
    now rewrite (with_webSocket_same q w Hw).
  - unfold sendBinaryMessage, Eff.bind, Eff.gets. rewrite Hs. simpl.
    unfold viaSocket. rewrite Hw. simpl.
    now rewrite (with_webSocket_same q w Hw).
Qed.

Lemma ends_ret {S E A} (a : A) (Q : A -> S -> list E -> Prop) (s : S) :
  Q a s [] -> ends (Eff.ret a) Q s.
Proof. intros H. now exists a, s, []. Qed.

Lemma ends_get {S E} (Q : S -> S -> list E -> Prop) (s : S) :
  Q s s [] -> ends Eff.get Q s.
Proof. intros H. now exists s, s, []. Qed.

Lemma ends_gets {S E A} (f : S -> A) (Q : A -> S -> list E -> Prop) (s : S) :
  Q (f s) s [] -> ends (Eff.gets f) Q s.
Proof. intros H. now exists (f s), s, []. Qed.

Lemma ends_modify {S E} (f : S -> S) (Q : unit -> S -> list E -> Prop) (s : S) :
  Q tt (f s) [] -> ends (Eff.modify f) Q s.
Proof. intros H. now exists tt, (f s), []. Qed.

Lemma ends_emit {S E} (e : E) (Q : unit -> S -> list E -> Prop) (s : S) :
  Q tt s [e] -> ends (Eff.emit e) Q s.
Proof. intros H. now exists tt, s, [e]. Qed.

Lemma ends_bind {S E A B} (m : Eff.M S E A) (k : A -> Eff.M S E B)
      (Q : B -> S -> list E -> Prop) (s : S) :
  ends m (fun a s1 o1 => ends (k a) (fun b s2 o2 => Q b s2 (o1 ++ o2)) s1) s ->
  ends (Eff.bind m k) Q s.
Proof.
  intros (a & s1 & o1 & Hm & b & s2 & o2 & Hk & HQ).
  exists b, s2, (o1 ++ o2). split; [| exact HQ].
  unfold Eff.bind. now rewrite Hm, Hk.
Qed.

Lemma ends_viaSocket {A} (f : QWebSocketThreaded.M A)
      (Q : A -> t -> list Signal -> Prop) (q : t) (w : QWebSocketThreaded.t) :
  m_webSocket q = Some w ->
  ends f (fun a w' o => Q a (with_webSocket (Some w') q) (map socket o)) w ->
  ends (viaSocket f) Q q.
Proof.
  intros Hw (a & w' & o & Hf & HQ).
  exists a, (with_webSocket (Some w') q), (map socket o). split; [| exact HQ].
  unfold viaSocket. now rewrite Hw, Hf.
Qed.

Ltac run_on :=
  repeat (cbn beta iota;
          first
            [ apply ends_bind
            | apply ends_ret
            | apply ends_get
            | apply ends_gets
            | apply ends_modify
            | apply ends_emit
            | eapply ends_viaSocket; [reflexivity |]
            | match goal with
              | |- ends (if ?b then _ else _) _ _ =>
                  let E := fresh "E" in
                  destruct b eqn:E; simpl in E;
                  rewrite ?andb_false_r in E; try discriminate E
              | |- ends (onStateChanged ?st) _ _ => destruct st; simpl
              | |- ends _ _ _ => progress simpl
              end ]).

Ltac valid_urls :=
  simpl;
  repeat match goal with
         | H : (_ && _)%bool = true |- _ => apply andb_prop in H; destruct H
         end;
  repeat constructor; simpl; auto.

(** One call from a state where "[Open] implies a facade" runs to its end,
    keeps that, and opens valid urls only. *)
Lemma step_safe (c : Call) (q : t) :
  openHasSocket q ->
  ends (step tr isValid c)
       (fun _ q' out => openHasSocket q' /\ Forall (opensValidUrl isValid) out) q.
Proof.
  unfold openHasSocket. intros Hq.
  destruct q as [[w |] st u a cc es]; simpl in Hq.
  - destruct c as [m | d | u' | a' | | g | e]; try destruct e; destruct st;
      unfold step; run_on; (split; [simpl; intros _; discriminate | valid_urls]).
  - assert (Hst : st <> Open) by (intros E; now apply Hq).
    destruct c as [m | d | u' | a' | | g | e]; destruct st; try congruence;
      unfold step; run_on; (split; [simpl; intros HO; discriminate | valid_urls]).
Qed.

Lemma run_safe (cs : list Call) (q : t) :
  openHasSocket q ->
  ends (run tr isValid cs)
       (fun _ q' out => openHasSocket q' /\ Forall (opensValidUrl isValid) out) q.
Proof.
  unfold run. revert q. induction cs as [| c cs IH]; intros q Hq.
  - apply ends_ret. split; [exact Hq | constructor].
  - simpl. apply ends_bind.
    destruct (step_safe c q Hq) as (a & q1 & o1 & Hstep & Hq1 & Ho1).
    exists a, q1, o1. split; [exact Hstep |].
    destruct (IH q1 Hq1) as (b & q2 & o2 & Hrun & Hq2 & Ho2).
    exists b, q2, o2. split; [exact Hrun |].
    split; [exact Hq2 |]. apply Forall_app. now split.
Qed.

Lemma new_openHasSocket : openHasSocket new.
Proof. intros H. discriminate H. Qed.

(** Whatever the owner and the engine do to a fresh adapter, in any order,
    every call runs to its end: the adapter never calls through its facade
    pointer while it is null.  In particular its status is [Open] only while
    it owns a facade, so a send that is let through finds one. *)
Theorem adapter_never_dereferences_null (cs : list Call) :
  exists q out,
    run tr isValid cs new = Eff.Done tt q out /\
    (m_status q = Open -> m_webSocket q <> None).
Proof.
  destruct (run_safe cs new new_openHasSocket) as ([] & q & out & Hrun & Hq & _).
  now exists q, out.
Qed.

(** Whatever the owner and the engine do to a fresh adapter, every [open]
    command that reaches the facade carries a url for which [isValid()]
    holds. *)
Theorem adapter_opens_valid_urls_only (cs : list Call) (u : QUrl) :
  In (socket (QWebSocketThreaded.openCommand u))
     (Eff.outputOf (run tr isValid cs new)) ->
  isValid u = true.
Proof.
  destruct (run_safe cs new new_openHasSocket) as ([] & q & out & Hrun & _ & Hout).
  rewrite Hrun. simpl. intros Hin.
  exact (proj1 (Forall_forall _ _) Hout _ Hin).
Qed.

End AdapterSafety.

(** ** The adapter: opening, closing and passing messages on *)

Section AdapterCommands.
Import QQmlWebSocketThreaded Behaviour.
Variable tr : string -> QString.
Variable isValid : QUrl -> bool.

(** An adapter declared in QML ([classBegin], then its [url] and [active]
    properties, then [componentComplete]) sends nothing to a facade before
    it is completed; completion creates the facade and, if the url is
    valid, sends exactly one [open] with that url.  The status is still
    [Closed] and the description is still the "not ready" text of
    [classBegin]: completion does not clear it. *)
Theorem declared_adapter_opens_on_completion (u : QUrl) (g : SocketState) :
  u <> "" ->
  exists q,
    run tr isValid
        [CallClassBegin; CallSetUrl u; CallSetActive true; CallComponentComplete g] new
    = Eff.Done tt q
        ([urlChanged; activeChanged true]
           ++ (if isValid u then [socket (QWebSocketThreaded.openCommand u)] else [])) /\
    m_status q = Closed /\
    m_errorString q = tr "QQmlWebSocketThreaded is not ready." /\
    m_webSocket q = Some (QWebSocketThreaded.mk "" (if isValid u then u else "") g).
Proof.
  intros Hu. destruct u as [| c u']; [congruence |].
  unfold run. cbn [Eff.forEach step].
  unfold classBegin, setUrl, setActive, componentComplete, setSocket, open, close,
    viaSocket, hasSocket, Eff.bind, Eff.get, Eff.gets, Eff.modify, Eff.emit, Eff.ret.
  simpl.
  destruct (isValid (String c u')); simpl; eexists; repeat split.
Qed.

(** Giving a new, valid url to an adapter that is completed, active and
    [Open] first closes the connection (normal close code, empty reason),
    then announces the url, then opens the new url, in this order; the
    status stays [Open] until the engine reports otherwise. *)
Theorem setUrl_on_open_adapter_closes_then_opens
        (q : t) (w : QWebSocketThreaded.t) (u : QUrl) :
  m_status q = Open ->
  m_webSocket q = Some w ->
  m_componentCompleted q = true ->
  m_isActive q = true ->
  isValid u = true ->
  m_url q <> u ->
  exists q',
    setUrl isValid u q
    = Eff.Done tt q'
        [socket (QWebSocketThreaded.closeCommand CloseCodeNormal "");
         urlChanged;
         socket (QWebSocketThreaded.openCommand u)] /\
    m_url q' = u /\
    m_status q' = Open /\
    m_webSocket q'
    = Some (QWebSocketThreaded.mk (QWebSocketThreaded.m_errorString w) u
                                  (QWebSocketThreaded.m_state w)).
Proof.
  intros Hs Hw Hc Ha Hv Hu.
  destruct q as [ws st u0 a cc es]. simpl in *. subst.
  unfold setUrl, Eff.bind at 1, Eff.get. cbn [m_url].
  rewrite (proj2 (String.eqb_neq u0 u) Hu).
  unfold open, viaSocket, hasSocket, Eff.bind, Eff.get, Eff.modify, Eff.emit, Eff.ret.
  simpl. rewrite Hv. simpl.
  eexists. repeat split.
Qed.

(** [setActive] with the value the adapter already has does nothing.  On a
    completed adapter that owns a facade, [setActive(false)] announces the
    change and sends a close with the normal close code and an empty
    reason, whatever the status is; before completion it only records and
    announces the value. *)
Theorem setActive_closes_or_defers (q : t) (w : QWebSocketThreaded.t) :
  setActive isValid (m_isActive q) q = Eff.Done tt q [] /\
  (m_isActive q = true ->
   m_componentCompleted q = true ->
   m_webSocket q = Some w ->
   setActive isValid false q
   = Eff.Done tt (with_isActive false q)
       [activeChanged false;
        socket (QWebSocketThreaded.closeCommand CloseCodeNormal "")]) /\
  (m_componentCompleted q = false ->
   setActive isValid (negb (m_isActive q)) q
   = Eff.Done tt (with_isActive (negb (m_isActive q)) q)
       [activeChanged (negb (m_isActive q))]).
Proof.
  destruct q as [ws st u a cc es].
  split; [| split].
  - unfold setActive, Eff.bind, Eff.get. simpl. now rewrite Bool.eqb_reflx.
  - simpl. intros -> -> ->. reflexivity.
  - simpl. intros ->. destruct a; reflexivity.
Qed.

(** What the adapter does with an engine event that is neither a state
    change nor an error. *)
Lemma fromEngine_plain_eq (e : QWebSocketThreaded.EngineEvent)
      (q : t) (w : QWebSocketThreaded.t) :
  isPlain e = true ->
  m_webSocket q = Some w ->
  fromEngine e q
  = Eff.Done tt q (socket (emitted (QWebSocketThreaded.CallEngine e)) :: passedOn e).
Proof.
  intros He Hw.
  unfold fromEngine, Eff.bind at 1, Eff.get. rewrite Hw.
  destruct e; try discriminate He; simpl;
    unfold Eff.bind, Eff.modify, Eff.emit, Eff.ret;
    now rewrite (with_webSocket_same q w Hw).
Qed.

(** Text and binary messages the engine delivers are passed on to the
    adapter's listeners as they are, one signal per message and in the
    order of arrival; [connected] and [disconnected] are not passed on.
    None of these changes the adapter. *)
Theorem messages_passed_on_in_order (es : list QWebSocketThreaded.EngineEvent)
        (q : t) (w : QWebSocketThreaded.t) :
  m_webSocket q = Some w ->
  forallb isPlain es = true ->
  exists out,
    run tr isValid (map CallEngine es) q = Eff.Done tt q out /\
    ownSignals out = flat_map passedOn es /\
    socketSignals out = map (fun e => emitted (QWebSocketThreaded.CallEngine e)) es.
Proof.
  intros Hw. unfold run. induction es as [| e es IH]; intros Hes.
  - exists []. now repeat split.
  - simpl in Hes. apply andb_prop in Hes. destruct Hes as [He Hes].
    destruct (IH Hes) as (out & Hrun & Hown & Hsock).
    exists ((socket (emitted (QWebSocketThreaded.CallEngine e)) :: passedOn e) ++ out).
    split; [| split].
    + simpl. unfold Eff.bind. cbn [step].
      rewrite (fromEngine_plain_eq e q w He Hw), Hrun. reflexivity.
    + simpl. rewrite <- Hown. destruct e; try discriminate He; reflexivity.
    + cbn [app socketSignals map]. f_equal.
      rewrite socketSignals_app, Hsock.
      destruct e; try discriminate He; reflexivity.
Qed.

(** An adapter built around an existing facade owns it, is active, has the
    facade's url, and shows at once the state the facade holds: a status
    other than [Closed] is announced and comes with an empty description,
    [Closed] keeps the facade's description and is not announced. *)
Theorem wrapped_facade_shows_its_state (facade : QWebSocketThreaded.t) :
  exists q out,
    newFrom facade = Eff.Done tt q out /\
    m_webSocket q = Some facade /\
    m_url q = QWebSocketThreaded.m_url facade /\
    m_isActive q = true /\
    m_status q = statusFor (QWebSocketThreaded.m_state facade) /\
    statusNotifications out
    = (if Status_eqb Closed (statusFor (QWebSocketThreaded.m_state facade))
       then [] else [statusFor (QWebSocketThreaded.m_state facade)]) /\
    m_errorString q
    = (if Status_eqb Closed (statusFor (QWebSocketThreaded.m_state facade))
       then QWebSocketThreaded.m_errorString facade else "").
Proof.
  destruct facade as [es u st].
  unfold newFrom, setSocket, viaSocket, QWebSocketThreaded.state,
    Eff.bind at 1 2, Eff.modify, Eff.gets.
  cbn -[onStateChanged].
  rewrite onStateChanged_eq.
  destruct st; cbn [statusFor Status_eqb];
    first
      [ rewrite setStatus_same by reflexivity; cbn [app];
        eexists _, _; now repeat split
      | rewrite setStatus_change by (simpl; discriminate); cbn -[String.eqb];
        eexists _, _; split; [reflexivity |]; repeat split;
        rewrite statusNotifications_app; now destruct (String.eqb _ _) ].
Qed.

End AdapterCommands.

(** ** The server: what a handshake ends in, and the queue under any run *)

Section ServerMore.
Import Handshake QWebSocketServer Behaviour.
Variable QWebSocket : Type.
Variable upgradeFrom :
  TcpSocket -> HandshakeRequest -> HandshakeResponse -> option QWebSocket.
Variable respond :
  HandshakeRequest -> QString -> bool -> list Version -> list QString ->
  list QString -> HandshakeResponse.

Local Abbreviation server := (QWebSocketServer.t QWebSocket).
Local Abbreviation handshakeReceived :=
  (QWebSocketServer.handshakeReceived QWebSocket upgradeFrom respond).
Local Abbreviation with_pendingConnections :=
  (QWebSocketServer.with_pendingConnections QWebSocket).

(** A request whose response allows the upgrade, upgraded while the queue
    has room: the response is written and flushed before the upgrade, the
    new connection becomes a child of the server and the last of the queue,
    [newConnection] is emitted once, and the raw stream is not closed. *)
Theorem valid_upgrade_is_queued_and_announced
        (s : server) (sock : TcpSocket) (pWebSocket : QWebSocket) :
  let fd := socketDescriptor sock in
  let request := readFrom (peerPort sock) false sock in
  let response := respond request (m_serverName s)
                          (isOriginAllowed (getOrigin request))
                          supportedVersions supportedProtocols supportedExtensions in
  isValid response = true ->
  canUpgrade response = true ->
  upgradeFrom sock request response = Some pWebSocket ->
  (queueLength s < maxPending s)%Z ->
  handshakeReceived (Some sock) s =
  Eff.Done tt (with_pendingConnections (m_pendingConnections s ++ [pWebSocket]) s)
    [tcpDisconnectReadyRead fd; tcpWrite fd response; tcpFlush fd;
     wsUpgradeFrom fd; wsSetParent pWebSocket; newConnection].
Proof.
  intros fd request response Hv Hc Hu Hroom.
  rewrite handshakeReceived_eq. fold fd. fold request. fold response.
  rewrite Hv, Hc, Hu. now rewrite (proj2 (Z.ltb_lt _ _) Hroom).
Qed.

(** A request whose response allows the upgrade, but for which
    [upgradeFrom] returns the null pointer: the positive response has
    already been written and flushed; nothing is queued, [newConnection] is
    not emitted, and the raw stream is closed. *)
Theorem failed_upgrade_closes_the_stream (s : server) (sock : TcpSocket) :
  let fd := socketDescriptor sock in
  let request := readFrom (peerPort sock) false sock in
  let response := respond request (m_serverName s)
                          (isOriginAllowed (getOrigin request))
                          supportedVersions supportedProtocols supportedExtensions in
  isValid response = true ->
  canUpgrade response = true ->
  upgradeFrom sock request response = None ->
  handshakeReceived (Some sock) s =
  Eff.Done tt s
    [tcpDisconnectReadyRead fd; tcpWrite fd response; tcpFlush fd;
     wsUpgradeFrom fd;
     qDebug "WebSocketServer::handshakeReceived: Upgrading to WebSocket failed.";
     qDebug "WebSocketServer::handshakeReceived: Closing socket because of invalid or unsupported request";
     tcpClose fd].
Proof.
  intros fd request response Hv Hc Hu.
  rewrite handshakeReceived_eq. fold fd. fold request. fold response.
  now rewrite Hv, Hc, Hu.
Qed.

(** Every handshake on a stream first disconnects the stream's [readyRead]
    and then ends in exactly one of two ways: [newConnection] is emitted
    once and the stream stays open, or the stream is closed once and
    nothing is announced.  It is announced exactly when the response is
    valid, allows the upgrade, and [upgradeFrom] returns a web socket. *)
Theorem handshake_announces_or_closes (s : server) (sock : TcpSocket) :
  let fd := socketDescriptor sock in
  let request := readFrom (peerPort sock) false sock in
  let response := respond request (m_serverName s)
                          (isOriginAllowed (getOrigin request))
                          supportedVersions supportedProtocols supportedExtensions in
  exists s' out,
    handshakeReceived (Some sock) s = Eff.Done tt s' out /\
    hd_error out = Some (tcpDisconnectReadyRead fd) /\
    announced out + closedStream fd out = 1 /\
    (announced out = 1 <->
     isValid response && canUpgrade response = true /\
     upgradeFrom sock request response <> None).
Proof.
  intros fd request response.
  rewrite handshakeReceived_eq. fold fd. fold request. fold response.
  destruct (isValid response); [destruct (canUpgrade response);
    [destruct (upgradeFrom sock request response) as [ws |] |] |];
    eexists _, _; (split; [reflexivity |]); simpl; rewrite ?Z.eqb_refl;
    (split; [reflexivity |]); (split; [reflexivity |]);
    split; try discriminate; try (intros [H1 H2]; congruence);
    intros _; split; [reflexivity | discriminate].
Qed.

(** The destructor closes every connection still waiting, front to back,
    with the "going away" close code and the reason "Server closed.",
    schedules each for deletion, leaves the queue empty and schedules the
    TCP server for deletion last. *)
Theorem destructor_closes_waiting_connections (s : server) :
  QWebSocketServer.destroy QWebSocket s =
  Eff.Done tt (with_pendingConnections [] s)
    (flat_map (fun ws => [wsClose ws CC_GOING_AWAY "Server closed.";
                          wsDeleteLater ws]) (m_pendingConnections s)
       ++ [tcpServerDeleteLater]).
Proof.
  unfold QWebSocketServer.destroy, Eff.bind at 1, Eff.gets.
  unfold Eff.bind, Eff.emit.
  rewrite (closeAll_eq QWebSocket (m_pendingConnections s) s).
  destruct s as [p n [| ws q]]; reflexivity.
Qed.

(** Lowering the limit to the current length or below discards nothing:
    the queue keeps every connection (and may now be longer than the
    limit), [maxPendingConnections()] returns the new limit, and a
    connection added next is refused. *)
Theorem lowering_the_limit_keeps_the_queue
        (s : server) (numConnections : Z) (pWebSocket : QWebSocket) :
  (numConnections <= queueLength s)%Z ->
  exists s',
    (QWebSocketServer.setMaxPendingConnections QWebSocket numConnections ;;
     QWebSocketServer.addPendingConnection QWebSocket pWebSocket) s
    = Eff.Done tt s' [] /\
    m_pendingConnections s' = m_pendingConnections s /\
    QWebSocketServer.maxPendingConnections QWebSocket s'
    = Eff.Done numConnections s' [].
Proof.
  intros Hn. unfold Eff.bind, QWebSocketServer.setMaxPendingConnections, Eff.modify.
  rewrite addPendingConnection_eq.
  assert (H : (queueLength (with_tcpServer QWebSocket (mkTcpServer numConnections) s)
               <? maxPending (with_tcpServer QWebSocket (mkTcpServer numConnections) s))%Z
              = false).
  { apply Z.ltb_ge. exact Hn. }
  rewrite H. eexists. now repeat split.
Qed.

(** A call other than an accept leaves the waiting connections where they
    are and adds at most behind them. *)
Lemma step_appends (c : QWebSocketServer.Call QWebSocket) (s : server) :
  c <> CallNextPendingConnection ->
  exists s1 out added,
    QWebSocketServer.step QWebSocket upgradeFrom respond c s = Eff.Done tt s1 out /\
    m_pendingConnections s1 = m_pendingConnections s ++ added.
Proof.
  intros Hc.
  destruct c as [sock | [sock |] | ws | | sender]; cbn [QWebSocketServer.step].
  - exists s, [tcpConnectReadyRead (socketDescriptor sock)], []. now rewrite app_nil_r.
  - rewrite handshakeReceived_eq.
    destruct (isValid _); [destruct (canUpgrade _);
      [destruct (upgradeFrom _ _ _) as [ws |] |] |];
      try (eexists s, _, []; rewrite app_nil_r; split; reflexivity).
    destruct (Z.ltb _ _).
    + eexists _, _, [ws]. split; reflexivity.
    + eexists s, _, []. rewrite app_nil_r. split; reflexivity.
  - eexists s, _, []. rewrite app_nil_r. split; reflexivity.
  - rewrite addPendingConnection_eq. destruct (Z.ltb _ _).
    + eexists _, _, [ws]. split; reflexivity.
    + eexists s, _, []. rewrite app_nil_r. split; reflexivity.
  - congruence.
  - destruct sender; eexists s, _, []; rewrite app_nil_r; split; reflexivity.
Qed.


End ServerMore.

(** ** The further properties on concrete inputs *)

Section MoreRuns.
Import Handshake Properties Behaviour.

Local Abbreviation respond := (HandshakeResponse_new echoKey).

(** [connectedAdapter] is [openAdapter], the adapter of the run above. *)
Example connectedAdapter_reached : Eff.stateOf openAdapter = Some connectedAdapter.
Proof. reflexivity. Qed.

Lemma send_forwarded_when_open_witness :
  QQmlWebSocketThreaded.m_status connectedAdapter = QQmlWebSocketThreaded.Open /\
  QQmlWebSocketThreaded.sendTextMessage noTr "ping" connectedAdapter
  = Eff.Done (-1)%Z connectedAdapter
      [QQmlWebSocketThreaded.socket (QWebSocketThreaded.sendTextMessageCommand "ping")].
Proof.
  split; [reflexivity |].
  exact (proj1 (send_forwarded_when_open noTr connectedAdapter
                  (QWebSocketThreaded.mk "" "ws://host/" ConnectedState)
                  "ping" [] eq_refl eq_refl)).
Defined.

Lemma adapter_opens_valid_urls_only_witness :
  In (QQmlWebSocketThreaded.socket (QWebSocketThreaded.openCommand "ws://host/"))
     (Eff.outputOf
        (QQmlWebSocketThreaded.run noTr anyUrlValid
           [QQmlWebSocketThreaded.CallSetUrl "ws://host/";
            QQmlWebSocketThreaded.CallSetActive true;
            QQmlWebSocketThreaded.CallComponentComplete UnconnectedState]
           QQmlWebSocketThreaded.new)) /\
  anyUrlValid "ws://host/" = true.
Proof.
  assert (H : In (QQmlWebSocketThreaded.socket
                    (QWebSocketThreaded.openCommand "ws://host/"))
                 (Eff.outputOf
                    (QQmlWebSocketThreaded.run noTr anyUrlValid
                       [QQmlWebSocketThreaded.CallSetUrl "ws://host/";
                        QQmlWebSocketThreaded.CallSetActive true;
                        QQmlWebSocketThreaded.CallComponentComplete UnconnectedState]
                       QQmlWebSocketThreaded.new)))
    by (simpl; tauto).
  split; [exact H |].
  exact (adapter_opens_valid_urls_only noTr anyUrlValid _ _ H).
Defined.

Lemma declared_adapter_opens_on_completion_witness :
  "ws://host/" <> "" /\
  exists q,
    QQmlWebSocketThreaded.run noTr anyUrlValid
      [QQmlWebSocketThreaded.CallClassBegin;
       QQmlWebSocketThreaded.CallSetUrl "ws://host/";
       QQmlWebSocketThreaded.CallSetActive true;
       QQmlWebSocketThreaded.CallComponentComplete UnconnectedState]
      QQmlWebSocketThreaded.new
    = Eff.Done tt q
        [QQmlWebSocketThreaded.urlChanged; QQmlWebSocketThreaded.activeChanged true;
         QQmlWebSocketThreaded.socket (QWebSocketThreaded.openCommand "ws://host/")] /\
    QQmlWebSocketThreaded.m_status q = QQmlWebSocketThreaded.Closed /\
    QQmlWebSocketThreaded.m_errorString q = "QQmlWebSocketThreaded is not ready." /\
    QQmlWebSocketThreaded.m_webSocket q
    = Some (QWebSocketThreaded.mk "" "ws://host/" UnconnectedState).
Proof.
  assert (H : "ws://host/" <> "") by discriminate.
  split; [exact H |].
  exact (declared_adapter_opens_on_completion noTr anyUrlValid
           "ws://host/" UnconnectedState H).
Defined.

Lemma setUrl_on_open_adapter_closes_then_opens_witness :
  QQmlWebSocketThreaded.m_url connectedAdapter <> "ws://other/" /\
  exists q',
    QQmlWebSocketThreaded.setUrl anyUrlValid "ws://other/" connectedAdapter
    = Eff.Done tt q'
        [QQmlWebSocketThreaded.socket
           (QWebSocketThreaded.closeCommand CloseCodeNormal "");
         QQmlWebSocketThreaded.urlChanged;
         QQmlWebSocketThreaded.socket (QWebSocketThreaded.openCommand "ws://other/")] /\
    QQmlWebSocketThreaded.m_url q' = "ws://other/" /\
    QQmlWebSocketThreaded.m_status q' = QQmlWebSocketThreaded.Open /\
    QQmlWebSocketThreaded.m_webSocket q'
    = Some (QWebSocketThreaded.mk "" "ws://other/" ConnectedState).
Proof.
  assert (H : QQmlWebSocketThreaded.m_url connectedAdapter <> "ws://other/")
    by discriminate.
  split; [exact H |].
  exact (setUrl_on_open_adapter_closes_then_opens anyUrlValid connectedAdapter
           (QWebSocketThreaded.mk "" "ws://host/" ConnectedState) "ws://other/"
           eq_refl eq_refl eq_refl eq_refl eq_refl H).
Defined.

Lemma messages_passed_on_in_order_witness :
  exists out,
    QQmlWebSocketThreaded.run noTr anyUrlValid
      (map QQmlWebSocketThreaded.CallEngine
           [QWebSocketThreaded.EvConnected;
            QWebSocketThreaded.EvTextMessageReceived "a";
            QWebSocketThreaded.EvBinaryMessageReceived [Byte.x01];
            QWebSocketThreaded.EvTextMessageReceived "b";
            QWebSocketThreaded.EvDisconnected])
      connectedAdapter
    = Eff.Done tt connectedAdapter out /\
    ownSignals out
    = [QQmlWebSocketThreaded.textMessageReceived "a";
       QQmlWebSocketThreaded.binaryMessageReceived [Byte.x01];
       QQmlWebSocketThreaded.textMessageReceived "b"] /\
    QQmlWebSocketThreaded.socketSignals out
    = [QWebSocketThreaded.connected;
       QWebSocketThreaded.textMessageReceived "a";
       QWebSocketThreaded.binaryMessageReceived [Byte.x01];
       QWebSocketThreaded.textMessageReceived "b";
       QWebSocketThreaded.disconnected].
Proof.
  exact (messages_passed_on_in_order noTr anyUrlValid
           [QWebSocketThreaded.EvConnected;
            QWebSocketThreaded.EvTextMessageReceived "a";
            QWebSocketThreaded.EvBinaryMessageReceived [Byte.x01];
            QWebSocketThreaded.EvTextMessageReceived "b";
            QWebSocketThreaded.EvDisconnected]
           connectedAdapter
           (QWebSocketThreaded.mk "" "ws://host/" ConnectedState)
           eq_refl eq_refl).
Defined.

Lemma valid_upgrade_is_queued_and_announced_witness :
  (QWebSocketServer.queueLength twoWaiting < QWebSocketServer.maxPending twoWaiting)%Z /\
  Eff.stateOf (QWebSocketServer.handshakeReceived Z upgradeByDescriptor respond
                 (Some (goodSocket 3)) twoWaiting)
  = Some (QWebSocketServer.with_pendingConnections Z [1%Z; 2%Z; 3%Z] twoWaiting).
Proof.
  assert (H : (QWebSocketServer.queueLength twoWaiting
               < QWebSocketServer.maxPending twoWaiting)%Z) by reflexivity.
  split; [exact H |].
  rewrite (valid_upgrade_is_queued_and_announced Z upgradeByDescriptor respond
             twoWaiting (goodSocket 3) 3%Z eq_refl eq_refl eq_refl H).
  reflexivity.
Defined.

Lemma failed_upgrade_closes_the_stream_witness :
  Eff.stateOf (QWebSocketServer.handshakeReceived Z upgradeNever respond
                 (Some (goodSocket 3)) twoWaiting) = Some twoWaiting /\
  closedStream 3 (Eff.outputOf (QWebSocketServer.handshakeReceived Z upgradeNever respond
                                  (Some (goodSocket 3)) twoWaiting)) = 1.
Proof.
  rewrite (failed_upgrade_closes_the_stream Z upgradeNever respond
             twoWaiting (goodSocket 3) eq_refl eq_refl eq_refl).
  split; reflexivity.
Defined.

Lemma lowering_the_limit_keeps_the_queue_witness :
  (1 <= QWebSocketServer.queueLength twoWaiting)%Z /\
  exists s',
    (QWebSocketServer.setMaxPendingConnections Z 1 ;;
     QWebSocketServer.addPendingConnection Z 3%Z) twoWaiting = Eff.Done tt s' [] /\
    QWebSocketServer.m_pendingConnections s' = [1%Z; 2%Z] /\
    QWebSocketServer.maxPendingConnections Z s' = Eff.Done 1%Z s' [].
Proof.
  assert (H : (1 <= QWebSocketServer.queueLength twoWaiting)%Z)
    by (vm_compute; discriminate).
  split; [exact H |].
  exact (lowering_the_limit_keeps_the_queue Z twoWaiting 1%Z 3%Z H).
Defined.

Lemma setActive_closes_or_defers_witness :
  QQmlWebSocketThreaded.setActive anyUrlValid true connectedAdapter
  = Eff.Done tt connectedAdapter [] /\
  QQmlWebSocketThreaded.setActive anyUrlValid false connectedAdapter
  = Eff.Done tt (QQmlWebSocketThreaded.with_isActive false connectedAdapter)
      [QQmlWebSocketThreaded.activeChanged false;
       QQmlWebSocketThreaded.socket
         (QWebSocketThreaded.closeCommand CloseCodeNormal "")].
Proof.
  pose proof (setActive_closes_or_defers anyUrlValid connectedAdapter
                (QWebSocketThreaded.mk "" "ws://host/" ConnectedState)) as [H1 [H2 _]].
  split; [exact H1 | exact (H2 eq_refl eq_refl eq_refl)].
Defined.

End MoreRuns.
